(** * spring-sim: a chain of point masses joined by springs

    Shallow embedding of [src/main.ts].  The source file holds three
    revisions of the program: [V1] embeds the first one (lines 1-201, the
    revision with the node-count control), [V2] the second (lines 202-326,
    the bare chain) and [V3] the third (lines 327-517, the revision with the
    gravity control).  Drawing changes no state and is left out.

    - A JavaScript number is an IEEE 754 binary64 value, so numbers are
      Rocq's primitive floats: every arithmetic step rounds as the program's
      does.
    - [Vector] and [Circle] come from the simulationjs package, which is not
      part of the repository; only the fields and methods the program uses
      are modelled.  simulationjs vectors are mutated in place and return
      themselves; the program never shares a vector between two nodes (every
      stored vector is built by [new Vector] or [clone]), so vectors are
      plain values here.
    - Reading a property of [undefined] (an array read out of range followed
      by a field access) raises a TypeError that aborts the running handler
      and keeps the mutations done so far: handlers return an [outcome]
      carrying that state. *)

From Stdlib Require Import Floats ZArith Bool.
From stdpp Require Import base option list gmap.

Set Warnings "-inexact-float".

(** ** Numbers *)

(** [Math.min] and [Math.max] on two arguments: NaN is contagious and
    [-0] counts as smaller than [+0]. *)
Definition Math_min (a b : float) : float :=
  if (is_nan a || is_nan b)%bool then nan
  else if (a <? b)%float then a
  else if (b <? a)%float then b
  else if get_sign a then a else b.

Definition Math_max (a b : float) : float :=
  if (is_nan a || is_nan b)%bool then nan
  else if (a <? b)%float then b
  else if (b <? a)%float then a
  else if get_sign a then b else a.

Definition clamp (val min max : float) : float :=
  Math_max (Math_min val max) min.

(** JavaScript's SameValueZero comparison: NaN equals NaN and the two zeros
    are equal. *)
Definition SameValueZero (a b : float) : Prop :=
  a = b \/ (a =? b)%float = true.

(** ** Vectors and circles (simulationjs) *)

Record Vector : Set := mkVector { x : float; y : float }.

(** Modelled from the spec: the methods of simulationjs' [Vector] that the
    program calls; the package is not under [src/]. The spec lists them as
    add, sub, scale and clone, with an in-place divide and append. Each is
    written as the value the receiver holds afterwards. [same] compares two
    vectors the way JavaScript's SameValueZero compares their fields. *)
Module Vec.
Definition clone (v : Vector) : Vector := mkVector (x v) (y v).
Definition add (v w : Vector) : Vector :=
  mkVector (x v + x w)%float (y v + y w)%float.
Definition sub (v w : Vector) : Vector :=
  mkVector (x v - x w)%float (y v - y w)%float.
Definition multiply (v : Vector) (n : float) : Vector :=
  mkVector (x v * n)%float (y v * n)%float.
Definition divide (v : Vector) (n : float) : Vector :=
  mkVector (x v / n)%float (y v / n)%float.
Definition appendY (v : Vector) (value : float) : Vector :=
  mkVector (x v) (y v + value)%float.
Definition same (v w : Vector) : Prop :=
  SameValueZero (x v) (x w) /\ SameValueZero (y v) (y w).
End Vec.

(** Modelled from the spec: simulationjs' [distance] is not under [src/];
    the spec calls it the Euclidean distance. *)
Definition distance (p q : Vector) : float :=
  sqrt ((x p - x q) * (x p - x q) + (y p - y q) * (y p - y q))%float.

(** [class PhysicsCircle extends Circle]: a circle ([pos], [radius]) with a
    [mass] and a [velocity] that starts at [(0, 0)]. *)
Record PhysicsCircle : Set := mkCircle {
  mass : float;
  velocity : Vector;
  pos : Vector;
  radius : float
}.

Definition newPhysicsCircle (m : float) (p : Vector) (r : float) : PhysicsCircle :=
  mkCircle m (mkVector 0 0) p r.

Definition with_velocity (v : Vector) (c : PhysicsCircle) : PhysicsCircle :=
  mkCircle (mass c) v (pos c) (radius c).

(** Modelled from the spec: simulationjs' [circle.move(v)], called with the
    default duration 0, translates the position by [v] at once (the spec's
    [pos_new = pos_old + v_new]). *)
Definition move (v : Vector) (c : PhysicsCircle) : PhysicsCircle :=
  mkCircle (mass c) (velocity c) (Vec.add (pos c) v) (radius c).

(** What the integrator's velocity phase must leave alone. *)
Definition shape (c : PhysicsCircle) : float * Vector * float :=
  (mass c, pos c, radius c).

(** ** Arrays and exceptions *)

(** [a[i]] for a JavaScript index that may be negative: [undefined] outside
    the array. *)
Definition at_index {A} (l : list A) (i : Z) : option A :=
  if (i <? 0)%Z then None else l !! Z.to_nat i.

(** [a.splice(start)]: removes everything from [start] on; a negative
    [start] counts from the end.  The result is what stays in the array. *)
Definition splice {A} (l : list A) (start : Z) : list A :=
  if (start <? 0)%Z
  then take (Z.to_nat (Z.max (Z.of_nat (length l) + start) 0)) l
  else take (Z.to_nat start) l.

(** [circles[i].velocity = v]: a TypeError ([None]) when [circles[i]] is
    [undefined]. *)
Definition set_velocity (cs : list PhysicsCircle) (i : nat) (v : Vector)
  : option (list PhysicsCircle) :=
  c ← cs !! i; Some (<[i := with_velocity v c]> cs).

(** [circles[i].move(v)], with the same TypeError. *)
Definition move_at (cs : list PhysicsCircle) (i : nat) (v : Vector)
  : option (list PhysicsCircle) :=
  c ← cs !! i; Some (<[i := move v c]> cs).

(** What a handler leaves behind: it ran to its end, or a TypeError cut it
    short; either way the state it reached stays. *)
Inductive outcome (A : Type) : Type :=
| Done (a : A)
| TypeError (a : A).
Arguments Done {A} a.
Arguments TypeError {A} a.

Definition state_of {A} (o : outcome A) : A :=
  match o with Done a => a | TypeError a => a end.

Definition completes {A} (o : outcome A) : bool :=
  match o with Done _ => true | TypeError _ => false end.

(** ** The force between two neighbours *)

(** [springForceCircles(c1, c2)], with the two globals it reads passed
    in. *)
Definition springForceCircles (springConstant springLength : float)
    (c1 c2 : PhysicsCircle) : Vector :=
  let diff := mkVector (x (pos c1) - x (pos c2))%float (y (pos c1) - y (pos c2))%float in
  mkVector (springConstant * x diff)%float
           (springConstant * (y diff - springLength))%float.

(** [getClosestPointIndex(p)]: the loop keeps the first index at the
    smallest distance. [n] counts the iterations left. *)
Fixpoint closest_loop (p : Vector) (cs : list PhysicsCircle) (n i res : nat) : nat :=
  match n with
  | O => res
  | S n' =>
      match cs !! i, cs !! res with
      | Some ci, Some cr =>
          closest_loop p cs n' (S i)
            (if (distance (pos ci) p <? distance (pos cr) p)%float then i else res)
      | _, _ => res
      end
  end.

Definition getClosestPointIndex (cs : list PhysicsCircle) (p : Vector) : nat :=
  closest_loop p cs (length cs) 0 0.

(** A pointer event, as far as the handlers read it. *)
Record MouseEvent : Set := mkMouseEvent { offsetX : float; offsetY : float }.

(** ** First revision: node-count control (lines 1-201) *)

Module V1.

Definition fps : float := 60.
Definition forceDampen : float := 12.
Definition circleGap : float := 120.
Definition circleRadius : float := 6.
Definition circleMass : float := 0.5.
Definition g : float := 9.8.
(** [friction] is a constant local to the loop of [accelerateCircles]. *)
Definition friction : float := 0.98.

(** The program's mutable globals.  [ratio] is [canvas.ratio], read by the
    pointer handlers and never written. *)
Record State : Type := mkState {
  springLength : float;
  springConstant : float;
  currentDragging : nat;
  stationaryPoints : gset nat;
  numCircles : Z;
  circles : list PhysicsCircle;
  dragging : bool;
  mousePos : Vector;
  pressingShift : bool;
  prev : float;
  ratio : float
}.

Definition set_springLength (v : float) (s : State) : State :=
  mkState v (springConstant s) (currentDragging s) (stationaryPoints s)
    (numCircles s) (circles s) (dragging s) (mousePos s) (pressingShift s)
    (prev s) (ratio s).
Definition set_springConstant (v : float) (s : State) : State :=
  mkState (springLength s) v (currentDragging s) (stationaryPoints s)
    (numCircles s) (circles s) (dragging s) (mousePos s) (pressingShift s)
    (prev s) (ratio s).
Definition set_currentDragging (v : nat) (s : State) : State :=
  mkState (springLength s) (springConstant s) v (stationaryPoints s)
    (numCircles s) (circles s) (dragging s) (mousePos s) (pressingShift s)
    (prev s) (ratio s).
Definition set_stationaryPoints (v : gset nat) (s : State) : State :=
  mkState (springLength s) (springConstant s) (currentDragging s) v
    (numCircles s) (circles s) (dragging s) (mousePos s) (pressingShift s)
    (prev s) (ratio s).
Definition set_numCircles (v : Z) (s : State) : State :=
  mkState (springLength s) (springConstant s) (currentDragging s)
    (stationaryPoints s) v (circles s) (dragging s) (mousePos s)
    (pressingShift s) (prev s) (ratio s).
Definition set_circles (v : list PhysicsCircle) (s : State) : State :=
  mkState (springLength s) (springConstant s) (currentDragging s)
    (stationaryPoints s) (numCircles s) v (dragging s) (mousePos s)
    (pressingShift s) (prev s) (ratio s).
Definition set_dragging (v : bool) (s : State) : State :=
  mkState (springLength s) (springConstant s) (currentDragging s)
    (stationaryPoints s) (numCircles s) (circles s) v (mousePos s)
    (pressingShift s) (prev s) (ratio s).
Definition set_mousePos (v : Vector) (s : State) : State :=
  mkState (springLength s) (springConstant s) (currentDragging s)
    (stationaryPoints s) (numCircles s) (circles s) (dragging s) v
    (pressingShift s) (prev s) (ratio s).
Definition set_pressingShift (v : bool) (s : State) : State :=
  mkState (springLength s) (springConstant s) (currentDragging s)
    (stationaryPoints s) (numCircles s) (circles s) (dragging s) (mousePos s)
    v (prev s) (ratio s).
Definition set_prev (v : float) (s : State) : State :=
  mkState (springLength s) (springConstant s) (currentDragging s)
    (stationaryPoints s) (numCircles s) (circles s) (dragging s) (mousePos s)
    (pressingShift s) v (ratio s).

(** *** Construction, reset, resize *)

(** [generatePoints(pos, num)]: [n] counts the iterations left and [i] is
    the loop counter, a number like any other. *)
Fixpoint generatePoints_loop (p : Vector) (n : nat) (i : float) : list PhysicsCircle :=
  match n with
  | O => []
  | S n' =>
      newPhysicsCircle circleMass (mkVector (x p) (i * circleGap + y p)%float) circleRadius
        :: generatePoints_loop p n' (i + 1)%float
  end.

(** The node count is an integer: the control that feeds it is an integer
    input. *)
Definition generatePoints (p : Vector) (num : Z) : list PhysicsCircle :=
  generatePoints_loop p (Z.to_nat num) 0%float.

Definition updateSpringConstant (val : float) (s : State) : State :=
  set_springConstant val s.

Definition updateSpringLength (val : float) (s : State) : State :=
  set_springLength val s.

Definition resetCircles (s : State) : State :=
  let s := set_stationaryPoints {[ 0 ]} s in
  set_circles (generatePoints (mkVector 800 250) (numCircles s)) s.

(** The [while (num > numCircles)] loop of [updateNumCircles]; [k] counts
    the iterations left.  [circles[circles.length - 1]] is [undefined] on
    an empty array. *)
Fixpoint grow (k : nat) (s : State) : outcome State :=
  match k with
  | O => Done s
  | S k' =>
      match at_index (circles s) (Z.of_nat (length (circles s)) - 1) with
      | None => TypeError s
      | Some c =>
          let circle := newPhysicsCircle circleMass (Vec.clone (pos c)) circleRadius in
          grow k' (set_numCircles (numCircles s + 1) (set_circles (circles s ++ [circle]) s))
      end
  end.

(** [updateNumCircles(val)], with [+val] as its argument: the control
    delivers integers, and the model covers integer counts only. A
    fractional [+val] (which the source would store as it is) is outside
    it. *)
Definition updateNumCircles (num : Z) (s : State) : outcome State :=
  match grow (Z.to_nat (num - numCircles s)) s with
  | TypeError s' => TypeError s'
  | Done s' =>
      if (num <? numCircles s')%Z
      then
        let s'' := set_numCircles num s' in
        Done (set_circles (splice (circles s'') (numCircles s'')) s'')
      else Done s'
  end.

(** The start-up state: the module's initialisers, with the first reading
    of [Date.now()] and the canvas ratio as inputs. *)
Definition init (now ratio : float) : State :=
  mkState 80 4 0 {[ 0 ]} 10 (generatePoints (mkVector 800 250) 10) false
    (mkVector 0 0) false now ratio.

(** *** Pointer and keyboard handlers *)

Definition event_point (s : State) (e : MouseEvent) : Vector :=
  mkVector (offsetX e * ratio s)%float (offsetY e * ratio s)%float.

Definition mousedown (e : MouseEvent) (s : State) : outcome State :=
  let p := event_point s e in
  let s := set_currentDragging (getClosestPointIndex (circles s) p) s in
  if pressingShift s then
    if (currentDragging s =? 0)%nat then Done s
    else if bool_decide (currentDragging s ∈ stationaryPoints s) then
      let s := set_stationaryPoints (stationaryPoints s ∖ {[ currentDragging s ]}) s in
      Done (set_currentDragging 0 s)
    else
      match set_velocity (circles s) (currentDragging s) (mkVector 0 0) with
      | None => TypeError s
      | Some cs =>
          let s := set_circles cs s in
          Done (set_stationaryPoints ({[ currentDragging s ]} ∪ stationaryPoints s) s)
      end
  else
    let s := set_dragging true s in
    match set_velocity (circles s) (currentDragging s) (mkVector 0 0) with
    | None => TypeError s
    | Some cs => Done (set_circles cs s)
    end.

Definition mouseup (e : MouseEvent) (s : State) : outcome State :=
  if dragging s then
    let s := set_dragging false s in
    let p := event_point s e in
    let diff := Vec.sub p (mousePos s) in
    match set_velocity (circles s) (currentDragging s) (Vec.multiply diff 2) with
    | None => TypeError s
    | Some cs => Done (set_currentDragging 0 (set_circles cs s))
    end
  else Done s.

Definition mousemove (e : MouseEvent) (s : State) : outcome State :=
  let p := event_point s e in
  if dragging s then
    let diff := Vec.sub (Vec.clone p) (mousePos s) in
    match move_at (circles s) (currentDragging s) diff with
    | None => TypeError s
    | Some cs => Done (set_mousePos p (set_circles cs s))
    end
  else Done (set_mousePos p s).

(** [keydown] and [keyup] read [e.key] only to compare it with ["Shift"]:
    the event is that comparison's result. *)
Definition keydown (isShift : bool) (s : State) : State :=
  if isShift then set_pressingShift true s else s.

Definition keyup (isShift : bool) (s : State) : State :=
  if isShift then set_pressingShift false s else s.

(** *** The integrator *)

(** The force on node [i], lines 168-175: the two spring forces, their
    difference, [force.divide(forceDampen)], [force.appendY(weight)]. *)
Definition nodeForce (s : State) (cs : list PhysicsCircle) (i : nat) : option Vector :=
  ci ← cs !! i;
  let weight := (mass ci * g)%float in
  forceBelow ←
    (if (Z.of_nat i <? Z.of_nat (length cs) - 1)%Z
     then cb ← cs !! (i + 1); Some (springForceCircles (springConstant s) (springLength s) cb ci)
     else Some (mkVector 0 0));
  ca ← at_index cs (Z.of_nat i - 1);
  let forceAbove := springForceCircles (springConstant s) (springLength s) ci ca in
  let force := mkVector (x forceBelow - x forceAbove)%float (y forceBelow - y forceAbove)%float in
  let force := Vec.divide force forceDampen in
  let force := Vec.appendY force weight in
  Some force.

(** Lines 176-183: the velocity node [i] gets. *)
Definition newVelocity (s : State) (dx : float) (cs : list PhysicsCircle) (i : nat)
  : option Vector :=
  ci ← cs !! i;
  force ← nodeForce s cs i;
  let accY := (y force / mass ci / fps)%float in
  let accX := (x force / mass ci / fps)%float in
  let vfy := (y (velocity ci) + accY * dx)%float in
  let vfx := (x (velocity ci) + accX * dx)%float in
  let vfy := (vfy * friction)%float in
  let vfx := (vfx * friction)%float in
  Some (mkVector vfx vfy).

Definition skipped (s : State) (i : nat) : bool :=
  bool_decide (i ∈ stationaryPoints s) || (i =? currentDragging s)%nat.

(** The [for] loop of [accelerateCircles] over the array it mutates; [n]
    counts the iterations left. *)
Fixpoint accelerate_loop (s : State) (dx : float) (n i : nat) (cs : list PhysicsCircle)
  : outcome (list PhysicsCircle) :=
  match n with
  | O => Done cs
  | S n' =>
      if skipped s i then accelerate_loop s dx n' (S i) cs
      else
        match newVelocity s dx cs i with
        | None => TypeError cs
        | Some v =>
            match set_velocity cs i v with
            | None => TypeError cs
            | Some cs' => accelerate_loop s dx n' (S i) cs'
            end
        end
  end.

(** [accelerateCircles(circles)]; [now] is what [Date.now()] returns. *)
Definition accelerateCircles (now : float) (s : State) : outcome State :=
  let dx := clamp (now - prev s)%float 0 17 in
  let s := set_prev now s in
  match accelerate_loop s dx (length (circles s)) 0 (circles s) with
  | Done cs => Done (set_circles cs s)
  | TypeError cs => TypeError (set_circles cs s)
  end.

(** One run of the [frameLoop] callback; drawing changes no state. *)
Definition frame (now : float) (s : State) : outcome State :=
  match accelerateCircles now s with
  | TypeError s' => TypeError s'
  | Done s' => Done (set_circles (map (fun c => move (velocity c) c) (circles s')) s')
  end.

(** *** Events *)

(** What the browser delivers between two runs of the page's code. *)
Inductive Event : Type :=
| MouseDown (e : MouseEvent)
| MouseUp (e : MouseEvent)
| MouseMove (e : MouseEvent)
| KeyDown (isShift : bool)
| KeyUp (isShift : bool)
| Frame (now : float).

Definition handle (ev : Event) (s : State) : outcome State :=
  match ev with
  | MouseDown e => mousedown e s
  | MouseUp e => mouseup e s
  | MouseMove e => mousemove e s
  | KeyDown k => Done (keydown k s)
  | KeyUp k => Done (keyup k s)
  | Frame now => frame now s
  end.

(** A run of events; a TypeError ends its handler, not the page. *)
Definition run (evs : list Event) (s : State) : State :=
  fold_left (fun s ev => state_of (handle ev s)) evs s.

(** *** Reading the loop off a snapshot *)

(** Node [j] after the velocity phase, computed from the array [cs0] as it
    stood when the frame began. *)
Definition stepped (s : State) (dx : float) (cs0 : list PhysicsCircle)
    (j : nat) (c : PhysicsCircle) : PhysicsCircle :=
  if skipped s j then c
  else match newVelocity s dx cs0 j with
       | Some v => with_velocity v c
       | None => c
       end.

(** Outside a drag the index the integrator skips is the anchor or a
    pinned node. *)
Definition drag_inv (s : State) : Prop :=
  dragging s = false ->
  currentDragging s = 0 \/ currentDragging s ∈ stationaryPoints s.

(** During a drag the dragged index names a node of the chain. *)
Definition drag_in_range (s : State) : Prop :=
  dragging s = true -> currentDragging s < length (circles s).

(** *** Shapes of states *)

(** The node count is the chain's length. *)
Definition count_consistent (s : State) : Prop :=
  numCircles s = Z.of_nat (length (circles s)).

(** A circle as every constructor call of this revision builds it. *)
Definition standard (c : PhysicsCircle) : Prop :=
  mass c = circleMass /\ radius c = circleRadius.

(** What the pointer handlers and the integrator rely on: there is a node,
    an active drag names one, and the anchor is pinned. *)
Definition safe (s : State) : Prop :=
  circles s <> [] /\ drag_in_range s /\ 0 ∈ stationaryPoints s.

End V1.


(** ** Third revision: gravity control (lines 327-517) *)

Module V3.

Definition fps : float := 60.
Definition forceDampen : float := 12.
Definition friction : float := 0.98.

(** The globals of this revision; gravity is a control here and there is no
    node count. *)
Record State : Type := mkState {
  g : float;
  springLength : float;
  springConstant : float;
  currentDragging : nat;
  stationaryPoints : gset nat;
  circles : list PhysicsCircle;
  dragging : bool;
  mousePos : Vector;
  pressingShift : bool;
  prev : float;
  ratio : float
}.

Definition set_stationaryPoints (v : gset nat) (s : State) : State :=
  mkState (g s) (springLength s) (springConstant s) (currentDragging s) v
    (circles s) (dragging s) (mousePos s) (pressingShift s) (prev s) (ratio s).
Definition set_circles (v : list PhysicsCircle) (s : State) : State :=
  mkState (g s) (springLength s) (springConstant s) (currentDragging s)
    (stationaryPoints s) v (dragging s) (mousePos s) (pressingShift s) (prev s)
    (ratio s).
Definition set_prev (v : float) (s : State) : State :=
  mkState (g s) (springLength s) (springConstant s) (currentDragging s)
    (stationaryPoints s) (circles s) (dragging s) (mousePos s) (pressingShift s)
    v (ratio s).

(** [generatePoints(pos, num, mass)], with its local [radius] and [gap]. *)
Fixpoint generatePoints_loop (p : Vector) (m : float) (n : nat) (i : float)
  : list PhysicsCircle :=
  let radius := 6%float in
  let gap := 160%float in
  match n with
  | O => []
  | S n' =>
      newPhysicsCircle m (mkVector (x p) (i * gap + y p)%float) radius
        :: generatePoints_loop p m n' (i + 1)%float
  end.

Definition generatePoints (p : Vector) (num : Z) (m : float) : list PhysicsCircle :=
  generatePoints_loop p m (Z.to_nat num) 0%float.

Definition resetCircles (s : State) : State :=
  let s := set_stationaryPoints {[ 0 ]} s in
  set_circles (generatePoints (mkVector 800 250) 12 0.5) s.

Definition getForceBelow (s : State) (cs : list PhysicsCircle) (index : nat)
  : option Vector :=
  ci ← cs !! index;
  let weight := (mass ci * g s)%float in
  if (Z.of_nat index <? Z.of_nat (length cs) - 1)%Z
  then
    cb ← cs !! (index + 1);
    Some (Vec.appendY (springForceCircles (springConstant s) (springLength s) cb ci) weight)
  else Some (mkVector 0 weight).

Definition getForceAbove (s : State) (cs : list PhysicsCircle) (index : nat)
  : option Vector :=
  ci ← cs !! index;
  ca ← at_index cs (Z.of_nat index - 1);
  Some (springForceCircles (springConstant s) (springLength s) ci ca).

(** Lines 485-489: the force on node [i] after [force.divide]. *)
Definition nodeForce (s : State) (cs : list PhysicsCircle) (i : nat) : option Vector :=
  forceBelow ← getForceBelow s cs i;
  forceAbove ← getForceAbove s cs i;
  let force := mkVector (x forceBelow - x forceAbove)%float (y forceBelow - y forceAbove)%float in
  Some (Vec.divide force forceDampen).

Definition newVelocity (s : State) (dx : float) (cs : list PhysicsCircle) (i : nat)
  : option Vector :=
  force ← nodeForce s cs i;
  ci ← cs !! i;
  let accY := (y force / mass ci / fps)%float in
  let accX := (x force / mass ci / fps)%float in
  let vfy := (y (velocity ci) + accY * dx)%float in
  let vfx := (x (velocity ci) + accX * dx)%float in
  let vfy := (vfy * friction)%float in
  let vfx := (vfx * friction)%float in
  Some (mkVector vfx vfy).

Definition skipped (s : State) (i : nat) : bool :=
  bool_decide (i ∈ stationaryPoints s) || (i =? currentDragging s)%nat.

Fixpoint accelerate_loop (s : State) (dx : float) (n i : nat) (cs : list PhysicsCircle)
  : outcome (list PhysicsCircle) :=
  match n with
  | O => Done cs
  | S n' =>
      if skipped s i then accelerate_loop s dx n' (S i) cs
      else
        match newVelocity s dx cs i with
        | None => TypeError cs
        | Some v =>
            match set_velocity cs i v with
            | None => TypeError cs
            | Some cs' => accelerate_loop s dx n' (S i) cs'
            end
        end
  end.

Definition accelerateCircles (now : float) (s : State) : outcome State :=
  let dx := clamp (now - prev s)%float 0 17 in
  let s := set_prev now s in
  match accelerate_loop s dx (length (circles s)) 0 (circles s) with
  | Done cs => Done (set_circles cs s)
  | TypeError cs => TypeError (set_circles cs s)
  end.

(** *** Controls, pointer and keyboard handlers, frames *)

Definition set_g (v : float) (s : State) : State :=
  mkState v (springLength s) (springConstant s) (currentDragging s)
    (stationaryPoints s) (circles s) (dragging s) (mousePos s) (pressingShift s)
    (prev s) (ratio s).
Definition set_springLength (v : float) (s : State) : State :=
  mkState (g s) v (springConstant s) (currentDragging s)
    (stationaryPoints s) (circles s) (dragging s) (mousePos s) (pressingShift s)
    (prev s) (ratio s).
Definition set_springConstant (v : float) (s : State) : State :=
  mkState (g s) (springLength s) v (currentDragging s)
    (stationaryPoints s) (circles s) (dragging s) (mousePos s) (pressingShift s)
    (prev s) (ratio s).
Definition set_currentDragging (v : nat) (s : State) : State :=
  mkState (g s) (springLength s) (springConstant s) v
    (stationaryPoints s) (circles s) (dragging s) (mousePos s) (pressingShift s)
    (prev s) (ratio s).
Definition set_dragging (v : bool) (s : State) : State :=
  mkState (g s) (springLength s) (springConstant s) (currentDragging s)
    (stationaryPoints s) (circles s) v (mousePos s) (pressingShift s)
    (prev s) (ratio s).
Definition set_mousePos (v : Vector) (s : State) : State :=
  mkState (g s) (springLength s) (springConstant s) (currentDragging s)
    (stationaryPoints s) (circles s) (dragging s) v (pressingShift s)
    (prev s) (ratio s).
Definition set_pressingShift (v : bool) (s : State) : State :=
  mkState (g s) (springLength s) (springConstant s) (currentDragging s)
    (stationaryPoints s) (circles s) (dragging s) (mousePos s) v
    (prev s) (ratio s).

Definition updateSpringConstant (val : float) (s : State) : State :=
  set_springConstant val s.
Definition updateSpringLength (val : float) (s : State) : State :=
  set_springLength val s.
Definition updateGravity (val : float) (s : State) : State :=
  set_g val s.

Definition event_point (s : State) (e : MouseEvent) : Vector :=
  mkVector (offsetX e * ratio s)%float (offsetY e * ratio s)%float.

(** The press handler of this revision: the shift branch has no test for
    index 0. *)
Definition mousedown (e : MouseEvent) (s : State) : outcome State :=
  let p := event_point s e in
  let s := set_currentDragging (getClosestPointIndex (circles s) p) s in
  if pressingShift s then
    if bool_decide (currentDragging s ∈ stationaryPoints s) then
      let s := set_stationaryPoints (stationaryPoints s ∖ {[ currentDragging s ]}) s in
      Done (set_currentDragging 0 s)
    else
      match set_velocity (circles s) (currentDragging s) (mkVector 0 0) with
      | None => TypeError s
      | Some cs =>
          let s := set_circles cs s in
          Done (set_stationaryPoints ({[ currentDragging s ]} ∪ stationaryPoints s) s)
      end
  else
    let s := set_dragging true s in
    match set_velocity (circles s) (currentDragging s) (mkVector 0 0) with
    | None => TypeError s
    | Some cs => Done (set_circles cs s)
    end.

Definition mouseup (e : MouseEvent) (s : State) : outcome State :=
  if dragging s then
    let s := set_dragging false s in
    let p := event_point s e in
    let diff := Vec.sub p (mousePos s) in
    match set_velocity (circles s) (currentDragging s) (Vec.multiply diff 2) with
    | None => TypeError s
    | Some cs => Done (set_currentDragging 0 (set_circles cs s))
    end
  else Done s.

Definition mousemove (e : MouseEvent) (s : State) : outcome State :=
  let p := event_point s e in
  if dragging s then
    let diff := Vec.sub (Vec.clone p) (mousePos s) in
    match move_at (circles s) (currentDragging s) diff with
    | None => TypeError s
    | Some cs => Done (set_mousePos p (set_circles cs s))
    end
  else Done (set_mousePos p s).

Definition keydown (isShift : bool) (s : State) : State :=
  if isShift then set_pressingShift true s else s.

Definition keyup (isShift : bool) (s : State) : State :=
  if isShift then set_pressingShift false s else s.

(** One run of the [frameLoop] callback. *)
Definition frame (now : float) (s : State) : outcome State :=
  match accelerateCircles now s with
  | TypeError s' => TypeError s'
  | Done s' => Done (set_circles (map (fun c => move (velocity c) c) (circles s')) s')
  end.

Inductive Event : Type :=
| MouseDown (e : MouseEvent)
| MouseUp (e : MouseEvent)
| MouseMove (e : MouseEvent)
| KeyDown (isShift : bool)
| KeyUp (isShift : bool)
| Frame (now : float).

Definition handle (ev : Event) (s : State) : outcome State :=
  match ev with
  | MouseDown e => mousedown e s
  | MouseUp e => mouseup e s
  | MouseMove e => mousemove e s
  | KeyDown k => Done (keydown k s)
  | KeyUp k => Done (keyup k s)
  | Frame now => frame now s
  end.

Definition run (evs : list Event) (s : State) : State :=
  fold_left (fun s ev => state_of (handle ev s)) evs s.

End V3.

(** ** Second revision: the bare chain (lines 202-326) *)

(** No pinned set, no controls: node 0 is the anchor by a test in the
    integrator, and the chain is built once. *)
Module V2.

Definition g : float := 9.8.
Definition fps : float := 60.
Definition springLength : float := 80.
Definition springConstant : float := 3.
Definition forceDampen : float := 20.
(** [friction] is a constant local to the loop of [accelerateCircles]. *)
Definition friction : float := 0.97.

Record State : Type := mkState {
  currentDragging : nat;
  circles : list PhysicsCircle;
  dragging : bool;
  mousePos : Vector;
  prev : float;
  ratio : float
}.

Definition set_currentDragging (v : nat) (s : State) : State :=
  mkState v (circles s) (dragging s) (mousePos s) (prev s) (ratio s).
Definition set_circles (v : list PhysicsCircle) (s : State) : State :=
  mkState (currentDragging s) v (dragging s) (mousePos s) (prev s) (ratio s).
Definition set_dragging (v : bool) (s : State) : State :=
  mkState (currentDragging s) (circles s) v (mousePos s) (prev s) (ratio s).
Definition set_mousePos (v : Vector) (s : State) : State :=
  mkState (currentDragging s) (circles s) (dragging s) v (prev s) (ratio s).
Definition set_prev (v : float) (s : State) : State :=
  mkState (currentDragging s) (circles s) (dragging s) (mousePos s) v (ratio s).

(** [generatePoints(pos, num, mass)], with its local [radius] and [gap]. *)
Fixpoint generatePoints_loop (p : Vector) (m : float) (n : nat) (i : float)
  : list PhysicsCircle :=
  let radius := 10%float in
  let gap := 160%float in
  match n with
  | O => []
  | S n' =>
      newPhysicsCircle m (mkVector (x p) (i * gap + y p)%float) radius
        :: generatePoints_loop p m n' (i + 1)%float
  end.

Definition generatePoints (p : Vector) (num : Z) (m : float) : list PhysicsCircle :=
  generatePoints_loop p m (Z.to_nat num) 0%float.

Definition init (now ratio : float) : State :=
  mkState 0 (generatePoints (mkVector 800 250) 12 0.5) false (mkVector 0 0) now ratio.

Definition event_point (s : State) (e : MouseEvent) : Vector :=
  mkVector (offsetX e * ratio s)%float (offsetY e * ratio s)%float.

(** The press handler searches inline, from the index [currentDragging]
    holds. When [circles[currentDragging]] is missing, the first comparison
    (or, on an empty chain, the velocity write) is a TypeError; either way
    only [dragging] has changed by then. *)
Definition mousedown (e : MouseEvent) (s : State) : outcome State :=
  let s := set_dragging true s in
  let p := event_point s e in
  match circles s !! currentDragging s with
  | None => TypeError s
  | Some _ =>
      let s := set_currentDragging
                 (closest_loop p (circles s) (length (circles s)) 0 (currentDragging s)) s in
      match set_velocity (circles s) (currentDragging s) (mkVector 0 0) with
      | None => TypeError s
      | Some cs => Done (set_circles cs s)
      end
  end.

(** The release handler does not look at [dragging]. *)
Definition mouseup (e : MouseEvent) (s : State) : outcome State :=
  let s := set_dragging false s in
  let p := event_point s e in
  let diff := Vec.sub p (mousePos s) in
  match set_velocity (circles s) (currentDragging s) (Vec.multiply diff 2) with
  | None => TypeError s
  | Some cs => Done (set_currentDragging 0 (set_circles cs s))
  end.

Definition mousemove (e : MouseEvent) (s : State) : outcome State :=
  let p := event_point s e in
  if dragging s then
    let diff := Vec.sub (Vec.clone p) (mousePos s) in
    match move_at (circles s) (currentDragging s) diff with
    | None => TypeError s
    | Some cs => Done (set_mousePos p (set_circles cs s))
    end
  else Done (set_mousePos p s).

Definition getForceBelow (cs : list PhysicsCircle) (index : nat) : option Vector :=
  ci ← cs !! index;
  let weight := (mass ci * g)%float in
  if (Z.of_nat index <? Z.of_nat (length cs) - 1)%Z
  then
    cb ← cs !! (index + 1);
    Some (Vec.appendY (springForceCircles springConstant springLength cb ci) weight)
  else Some (mkVector 0 weight).

Definition getForceAbove (cs : list PhysicsCircle) (index : nat) : option Vector :=
  ci ← cs !! index;
  ca ← at_index cs (Z.of_nat index - 1);
  Some (springForceCircles springConstant springLength ci ca).

Definition newVelocity (dx : float) (cs : list PhysicsCircle) (i : nat)
  : option Vector :=
  forceBelow ← getForceBelow cs i;
  forceAbove ← getForceAbove cs i;
  let force := mkVector (x forceBelow - x forceAbove)%float (y forceBelow - y forceAbove)%float in
  let force := Vec.divide force forceDampen in
  ci ← cs !! i;
  let accY := (y force / mass ci / fps)%float in
  let accX := (x force / mass ci / fps)%float in
  let vfy := (y (velocity ci) + accY * dx)%float in
  let vfx := (x (velocity ci) + accX * dx)%float in
  let vfy := (vfy * friction)%float in
  let vfx := (vfx * friction)%float in
  Some (mkVector vfx vfy).

(** [i === 0 || i == currentDragging]. *)
Definition skipped (s : State) (i : nat) : bool :=
  (i =? 0)%nat || (i =? currentDragging s)%nat.

Fixpoint accelerate_loop (s : State) (dx : float) (n i : nat) (cs : list PhysicsCircle)
  : outcome (list PhysicsCircle) :=
  match n with
  | O => Done cs
  | S n' =>
      if skipped s i then accelerate_loop s dx n' (S i) cs
      else
        match newVelocity dx cs i with
        | None => TypeError cs
        | Some v =>
            match set_velocity cs i v with
            | None => TypeError cs
            | Some cs' => accelerate_loop s dx n' (S i) cs'
            end
        end
  end.

Definition accelerateCircles (now : float) (s : State) : outcome State :=
  let dx := clamp (now - prev s)%float 0 17 in
  let s := set_prev now s in
  match accelerate_loop s dx (length (circles s)) 0 (circles s) with
  | Done cs => Done (set_circles cs s)
  | TypeError cs => TypeError (set_circles cs s)
  end.

Definition frame (now : float) (s : State) : outcome State :=
  match accelerateCircles now s with
  | TypeError s' => TypeError s'
  | Done s' => Done (set_circles (map (fun c => move (velocity c) c) (circles s')) s')
  end.

Inductive Event : Type :=
| MouseDown (e : MouseEvent)
| MouseUp (e : MouseEvent)
| MouseMove (e : MouseEvent)
| Frame (now : float).

Definition handle (ev : Event) (s : State) : outcome State :=
  match ev with
  | MouseDown e => mousedown e s
  | MouseUp e => mouseup e s
  | MouseMove e => mousemove e s
  | Frame now => frame now s
  end.

Definition run (evs : list Event) (s : State) : State :=
  fold_left (fun s ev => state_of (handle ev s)) evs s.

End V2.


(** ** Sample runs *)

(** The page as loaded at time 1000 on a canvas of ratio 1. *)
Definition start : V1.State := V1.init 1000 1.

Definition pointer (a b : float) : MouseEvent := mkMouseEvent a b.

(** The anchor (node 0, pinned from the start) is grabbed by an ordinary
    drag, pulled 100 to the right and released 10 further on. *)
Definition anchor_drag : list V1.Event :=
  [V1.MouseMove (pointer 800 250); V1.MouseDown (pointer 800 250);
   V1.MouseMove (pointer 900 250); V1.MouseUp (pointer 910 250)].

(** Node 5 is pinned with a shift-click. *)
Definition node5_pinned : V1.State :=
  V1.run [V1.KeyDown true; V1.MouseDown (pointer 800 850); V1.KeyUp true] start.

(** Node 5 is held by an ordinary drag. *)
Definition node5_held : V1.State :=
  V1.run [V1.MouseDown (pointer 800 850)] start.

(** Node 5 is held by an ordinary drag and the chain is then cut to 3
    nodes. *)
Definition node5_held_shrunk : V1.State :=
  state_of (V1.updateNumCircles 3 node5_held).

(** The third revision as loaded, with the same clock and canvas. *)
Definition start3 : V3.State :=
  V3.mkState 9.8 80 4 0 {[ 0 ]} (V3.generatePoints (mkVector 800 250) 12 0.5)
    false (mkVector 0 0) false 1000 1.

(** The second revision as loaded, with the same clock and canvas. *)
Definition start2 : V2.State := V2.init 1000 1.

(** In the third revision the anchor is unpinned by a shift-click, then node
    3 is held by an ordinary drag. *)
Definition anchor_unpinned3 : V3.State :=
  V3.run [V3.KeyDown true; V3.MouseDown (pointer 800 250); V3.KeyUp true;
          V3.MouseDown (pointer 800 730)] start3.

(** ** The spec's statements, for comparison *)


(** C2 in the spec's words: the difference of the two spring forces, then
    the weight on the y component, then the division of the whole by the
    dampening constant.  [below] is the node under [c], when there is
    one. *)
Definition claimed_force (k L gravity dampen : float)
    (above c : PhysicsCircle) (below : option PhysicsCircle) : Vector :=
  let Fbelow := match below with
                | Some b => springForceCircles k L b c
                | None => mkVector 0 0
                end in
  let Fabove := springForceCircles k L c above in
  let F := Vec.sub Fbelow Fabove in
  let F := Vec.appendY F (mass c * gravity)%float in
  Vec.divide F dampen.

(** C4 as the spec states it: a release during a drag sets the released
    node's velocity to twice the pointer's step, clears the dragged index
    and ends the drag. *)
Definition flick_claimed (e : MouseEvent) (s : V1.State) : Prop :=
  V1.dragging s = true ->
  let Δ := Vec.sub (V1.event_point s e) (V1.mousePos s) in
  let s' := state_of (V1.mouseup e s) in
  (exists c', V1.circles s' !! V1.currentDragging s = Some c' /\
              velocity c' = Vec.multiply Δ 2) /\
  V1.currentDragging s' = 0 /\
  V1.dragging s' = false.

(** C10 as the spec states it: a handler takes a state in which the dragged
    index is 0 or pinned whenever no drag is in progress to a state of the
    same kind. *)
Definition drag_inv_preserved_claimed (ev : V1.Event) (s : V1.State) : Prop :=
  V1.drag_inv s -> V1.drag_inv (state_of (V1.handle ev s)).

(** C7 as the spec states it: after a resize to [n] no pinned index and no
    dragged index is [n] or more. *)
Definition resize_drops_stale (s : V1.State) (n : Z) : Prop :=
  let s' := state_of (V1.updateNumCircles n s) in
  (forall i, i ∈ V1.stationaryPoints s' -> (Z.of_nat i < n)%Z) /\
  (Z.of_nat (V1.currentDragging s') < n)%Z.

(** C9 as the spec states it, with the weakest reading of a cleared dragged
    index: no drag in progress, or the index back at 0. *)
Definition reset_claimed (s : V1.State) : Prop :=
  let s' := V1.resetCircles s in
  V1.circles s' = V1.generatePoints (mkVector 800 250) 10 /\
  V1.stationaryPoints s' = {[ 0 ]} /\
  (V1.dragging s' = false \/ V1.currentDragging s' = 0).

(** The loop counter of [generatePoints] after [j] rounds of [i++]. *)
Definition counter (j : nat) : float :=
  Nat.iter j (fun i => (i + 1)%float) 0%float.

(** * Facts *)

(** ** Numbers *)

Lemma add_zero_same (a : float) : SameValueZero (a + 0)%float a.
Proof.
  unfold SameValueZero.
  pose proof (add_spec a 0) as H.
  change (Prim2SF 0) with (S754_zero false) in H.
  destruct (Prim2SF a) as [[|]| | |] eqn:E; cbn in H;
    try (left; apply Prim2SF_inj; congruence).
  right. rewrite FloatAxioms.eqb_spec, H, E. reflexivity.
Qed.

Lemma SFcompare_Gt_Lt (p q : spec_float) :
  SFcompare p q = Some Gt -> SFcompare q p = Some Lt.
Proof.
  destruct p as [sp|sp| |sp mp ep], q as [sq|sq| |sq mq eq]; cbn;
    try destruct sp; try destruct sq; try congruence.
  all: rewrite (Z.compare_antisym ep eq);
    destruct (ep ?= eq)%Z; cbn; try congruence;
    pose proof (Pos.compare_cont_antisym mp mq Eq) as A; cbn [CompOpp] in A;
    rewrite <- A; destruct (Pos.compare_cont Eq mp mq); cbn; congruence.
Qed.

Lemma SFcompare_None (p q : spec_float) :
  SFcompare p q = None -> p = S754_nan \/ q = S754_nan.
Proof.
  destruct p, q; cbn; try discriminate; auto.
Qed.

Lemma is_nan_false (a : float) : is_nan a = false -> Prim2SF a <> S754_nan.
Proof.
  unfold is_nan. rewrite FloatAxioms.eqb_spec. intros H E.
  rewrite E in H. discriminate.
Qed.

Lemma ltb_leb (a b : float) : (a <? b)%float = true -> (a <=? b)%float = true.
Proof.
  rewrite ltb_spec, leb_spec. unfold SFltb, SFleb.
  destruct (SFcompare _ _) as [[| |]|]; congruence.
Qed.

Lemma not_ltb_leb (a b : float) :
  is_nan a = false -> is_nan b = false ->
  (a <? b)%float = false -> (b <? a)%float = false -> (a <=? b)%float = true.
Proof.
  intros Ha%is_nan_false Hb%is_nan_false.
  rewrite !ltb_spec, leb_spec. unfold SFltb, SFleb.
  destruct (SFcompare (Prim2SF a) (Prim2SF b)) as [[| |]|] eqn:E; try congruence.
  - apply SFcompare_Gt_Lt in E. rewrite E. congruence.
  - apply SFcompare_None in E. tauto.
Qed.

Lemma clamp_range (val : float) :
  is_nan val = false ->
  (0 <=? clamp val 0 17)%float = true /\ (clamp val 0 17 <=? 17)%float = true.
Proof.
  intros Hv.
  assert (Hm : is_nan (Math_min val 17) = false /\ (Math_min val 17 <=? 17)%float = true).
  { unfold Math_min. rewrite Hv. cbn [orb].
    change (is_nan 17) with false. cbv iota.
    destruct (val <? 17)%float eqn:E1; [auto using ltb_leb|].
    destruct (17 <? val)%float eqn:E2; [split; reflexivity|].
    destruct (get_sign val); [|split; reflexivity].
    split; [done|]. by apply not_ltb_leb. }
  destruct Hm as [Hn Hle]. unfold clamp, Math_max.
  rewrite Hn. change (is_nan 0) with false. cbn [orb]. cbv iota.
  destruct (Math_min val 17 <? 0)%float eqn:E1; [split; reflexivity|].
  destruct (0 <? Math_min val 17)%float eqn:E2; [auto using ltb_leb|].
  destruct (get_sign _); [split; reflexivity|].
  split; [|done]. by apply not_ltb_leb.
Qed.


Lemma clamp_ceiling : clamp 10000 0 17 = 17%float /\ clamp 17 0 17 = 17%float.
Proof. split; vm_compute; reflexivity. Qed.

Lemma vec_add_zero (v : Vector) : Vec.same (Vec.add v (mkVector 0 0)) v.
Proof. split; cbn; apply add_zero_same. Qed.

Lemma vec_clone (v : Vector) : Vec.clone v = v.
Proof. by destruct v. Qed.

(** ** Arrays *)

Lemma set_velocity_Some cs i v cs' :
  set_velocity cs i v = Some cs' ->
  exists c, cs !! i = Some c /\ cs' = <[i := with_velocity v c]> cs.
Proof.
  unfold set_velocity. destruct (cs !! i) as [c|]; [|done].
  intros [= <-]. eauto.
Qed.

Lemma set_velocity_lookup cs i v c :
  cs !! i = Some c -> set_velocity cs i v = Some (<[i := with_velocity v c]> cs).
Proof. unfold set_velocity. by intros ->. Qed.

Lemma insert_same_shape (cs : list PhysicsCircle) i c c' :
  cs !! i = Some c -> shape c' = shape c ->
  shape <$> <[i := c']> cs = shape <$> cs.
Proof.
  intros Hi Hs. rewrite list_fmap_insert, Hs.
  apply list_insert_id. by rewrite list_lookup_fmap, Hi.
Qed.

Lemma shape_lookup (cs cs' : list PhysicsCircle) j :
  shape <$> cs = shape <$> cs' -> shape <$> cs !! j = shape <$> cs' !! j.
Proof. intros H. by rewrite <- !list_lookup_fmap, H. Qed.

Lemma shape_length (cs cs' : list PhysicsCircle) :
  shape <$> cs = shape <$> cs' -> length cs = length cs'.
Proof. intros H. by rewrite <- (length_fmap shape cs), H, length_fmap. Qed.

Lemma at_index_pred {A} (l : list A) (i : nat) :
  at_index l (Z.of_nat (S i) - 1) = l !! i.
Proof.
  unfold at_index. destruct (Z.ltb_spec (Z.of_nat (S i) - 1) 0); [lia|].
  f_equal. lia.
Qed.

Lemma at_index_zero {A} (l : list A) : at_index l (Z.of_nat 0 - 1) = None.
Proof. reflexivity. Qed.

(** ** The integrator of the first revision *)

Section Integrator.
Import V1.
Variables (s : State) (dx : float).

Lemma nodeForce_shape cs cs' i :
  shape <$> cs = shape <$> cs' -> nodeForce s cs i = nodeForce s cs' i.
Proof.
  intros H. unfold nodeForce, at_index.
  rewrite (shape_length _ _ H).
  pose proof (shape_lookup _ _ i H) as Hi.
  pose proof (shape_lookup _ _ (i + 1) H) as Hb.
  pose proof (shape_lookup _ _ (Z.to_nat (Z.of_nat i - 1)) H) as Ha.
  destruct (cs !! i) as [[]|], (cs' !! i) as [[]|]; simplify_eq/=; [|done].
  destruct (cs !! (i + 1)) as [[]|], (cs' !! (i + 1)) as [[]|];
    destruct (cs !! _) as [[]|], (cs' !! _) as [[]|];
    simplify_eq/=; repeat case_match; simplify_eq/=; done.
Qed.

Lemma newVelocity_shape cs cs' i :
  shape <$> cs = shape <$> cs' -> cs !! i = cs' !! i ->
  newVelocity s dx cs i = newVelocity s dx cs' i.
Proof.
  intros H Hi. unfold newVelocity. by rewrite (nodeForce_shape _ _ _ H), Hi.
Qed.

Lemma nodeForce_is_Some cs i :
  1 <= i < length cs -> is_Some (nodeForce s cs i).
Proof.
  intros [H1 H2]. destruct i as [|j]; [lia|].
  destruct (lookup_lt_is_Some_2 cs (S j) H2) as [ci Hci].
  destruct (lookup_lt_is_Some_2 cs j) as [ca Hca]; [lia|].
  unfold nodeForce. rewrite Hci, at_index_pred, Hca. cbn.
  destruct (Z.ltb_spec (Z.of_nat (S j)) (Z.of_nat (length cs) - 1)); cbn; [|eauto].
  destruct (lookup_lt_is_Some_2 cs (S j + 1)) as [cb Hcb]; [lia|].
  cbn in Hcb. rewrite Hcb. cbn. eauto.
Qed.

Lemma newVelocity_is_Some cs i :
  1 <= i < length cs -> is_Some (newVelocity s dx cs i).
Proof.
  intros H. destruct (nodeForce_is_Some cs i H) as [F HF].
  destruct (lookup_lt_is_Some_2 cs i) as [ci Hci]; [lia|].
  unfold newVelocity. rewrite Hci, HF. cbn. eauto.
Qed.

(** Whatever the loop's outcome, it writes velocities only, and only at
    the indices it does not skip. *)
Lemma accelerate_loop_frame n : forall i cs,
  let r := state_of (accelerate_loop s dx n i cs) in
  shape <$> r = shape <$> cs /\
  (forall j, j < i \/ skipped s j = true -> r !! j = cs !! j).
Proof.
  induction n as [|n IH]; intros i cs; cbn; [done|].
  destruct (skipped s i) eqn:Hs.
  - destruct (IH (S i) cs) as [IH1 IH2]. split; [done|].
    intros j Hj. apply IH2. destruct Hj; [left; lia | by right].
  - destruct (newVelocity s dx cs i) as [v|]; [|done].
    destruct (set_velocity cs i v) as [cs'|] eqn:Hset; [|done].
    apply set_velocity_Some in Hset as (c & Hc & ->).
    destruct (IH (S i) (<[i := with_velocity v c]> cs)) as [IH1 IH2].
    split.
    + rewrite IH1. by apply (insert_same_shape _ _ c).
    + intros j Hj. rewrite IH2 by (destruct Hj; [left; lia | by right]).
      apply list_lookup_insert_ne. intros ->. destruct Hj; [lia | congruence].
Qed.

(** When no read fails, the loop over the array it mutates computes what
    [stepped] computes from the array as it stood at the start. *)
Lemma accelerate_loop_snapshot cs0 n : forall i cs,
  i + n = length cs0 ->
  shape <$> cs = shape <$> cs0 ->
  (forall j, i <= j -> cs !! j = cs0 !! j) ->
  (forall j, j < i -> cs !! j = stepped s dx cs0 j <$> cs0 !! j) ->
  (forall j, i <= j < length cs0 -> skipped s j = false ->
             is_Some (newVelocity s dx cs0 j)) ->
  accelerate_loop s dx n i cs = Done (imap (stepped s dx cs0) cs0).
Proof.
  induction n as [|n IH]; intros i cs Hlen Hshape Hhi Hlo Hok; cbn.
  - f_equal. apply list_eq. intros j. rewrite list_lookup_imap.
    destruct (decide (j < i)) as [Hj|Hj]; [by apply Hlo|].
    rewrite Hhi by lia. rewrite (lookup_ge_None_2 cs0 j) by lia. done.
  - assert (Hi : i < length cs0) by lia.
    destruct (lookup_lt_is_Some_2 cs0 i Hi) as [c Hc].
    destruct (skipped s i) eqn:Hs.
    + apply IH; try done; try lia.
      * intros j Hj. apply Hhi. lia.
      * intros j Hj. destruct (decide (j = i)) as [->|]; [|apply Hlo; lia].
        rewrite Hhi, Hc by lia. cbn. unfold stepped. by rewrite Hs.
      * intros j Hj. apply Hok. lia.
    + rewrite (newVelocity_shape cs cs0 i Hshape) by (apply Hhi; lia).
      destruct (Hok i) as [v Hv]; [lia|done|]. rewrite Hv.
      rewrite (set_velocity_lookup cs i v c) by (rewrite Hhi by lia; done).
      apply IH; try lia.
      * rewrite <- Hshape. apply (insert_same_shape _ _ c); [|done].
        rewrite Hhi by lia. done.
      * intros j Hj. rewrite list_lookup_insert_ne by lia. apply Hhi. lia.
      * intros j Hj. destruct (decide (j = i)) as [->|].
        -- rewrite list_lookup_insert_eq
             by (rewrite (shape_length _ _ Hshape); lia).
           rewrite Hc. cbn. unfold stepped. by rewrite Hs, Hv.
        -- rewrite list_lookup_insert_ne by done. apply Hlo. lia.
      * intros j Hj. apply Hok. lia.
Qed.

End Integrator.

Lemma accelerateCircles_snapshot now s :
  V1.skipped s 0 = true ->
  V1.accelerateCircles now s =
    Done (V1.set_circles
            (imap (V1.stepped s (clamp (now - V1.prev s) 0 17) (V1.circles s))
                  (V1.circles s))
            (V1.set_prev now s)).
Proof.
  intros H0. unfold V1.accelerateCircles.
  set (dx := clamp _ _ _). set (s' := V1.set_prev now s).
  change (V1.circles s') with (V1.circles s).
  rewrite (accelerate_loop_snapshot s' dx (V1.circles s)); try done; [lia|].
  intros j Hj Hs. destruct (decide (j = 0)) as [->|Hne].
  - change (V1.skipped s' 0) with (V1.skipped s 0) in Hs. congruence.
  - apply newVelocity_is_Some. lia.
Qed.

Lemma accelerate_loop_prev a s dx n : forall i cs,
  V1.accelerate_loop (V1.set_prev a s) dx n i cs = V1.accelerate_loop s dx n i cs.
Proof.
  induction n as [|n IH]; intros i cs; cbn; [done|].
  change (V1.skipped (V1.set_prev a s) i) with (V1.skipped s i).
  change (V1.newVelocity (V1.set_prev a s) dx cs i) with (V1.newVelocity s dx cs i).
  destruct (V1.skipped s i); [done|].
  destruct (V1.newVelocity s dx cs i); [|done].
  destruct (set_velocity cs i v); [done|done].
Qed.

Lemma accelerateCircles_circles now s :
  V1.circles (state_of (V1.accelerateCircles now s)) =
  state_of (V1.accelerate_loop s (clamp (now - V1.prev s) 0 17)
              (length (V1.circles s)) 0 (V1.circles s)).
Proof.
  unfold V1.accelerateCircles. rewrite accelerate_loop_prev.
  change (V1.circles (V1.set_prev now s)) with (V1.circles s).
  by destruct (V1.accelerate_loop _ _ _ _ _).
Qed.

Lemma accelerateCircles_completes now s :
  completes (V1.accelerateCircles now s) =
  completes (V1.accelerate_loop s (clamp (now - V1.prev s) 0 17)
               (length (V1.circles s)) 0 (V1.circles s)).
Proof.
  unfold V1.accelerateCircles. rewrite accelerate_loop_prev.
  change (V1.circles (V1.set_prev now s)) with (V1.circles s).
  by destruct (V1.accelerate_loop _ _ _ _ _).
Qed.

(** The velocity phase writes no position, mass or radius, whether it runs
    to its end or not. *)
Lemma accelerateCircles_shape now s :
  shape <$> V1.circles (state_of (V1.accelerateCircles now s)) =
  shape <$> V1.circles s.
Proof. rewrite accelerateCircles_circles. apply accelerate_loop_frame. Qed.

Lemma accelerateCircles_skipped now s j :
  V1.skipped s j = true ->
  V1.circles (state_of (V1.accelerateCircles now s)) !! j = V1.circles s !! j.
Proof.
  intros H. rewrite accelerateCircles_circles.
  apply accelerate_loop_frame. by right.
Qed.

(** * The claims *)

(** C3 (dt clamp). One integration step fed an elapsed time of 10000 ms
    leaves every node with the velocity it gets from an elapsed time of
    exactly 17 ms, and ends the same way; whatever the elapsed time (any
    number but NaN), the clamped step lies in [0, 17], and 17 itself is
    kept. *)
Theorem dt_clamp (s : V1.State) (now1 now2 : float) :
  (now1 - V1.prev s)%float = 10000%float ->
  (now2 - V1.prev s)%float = 17%float ->
  V1.circles (state_of (V1.accelerateCircles now1 s)) =
    V1.circles (state_of (V1.accelerateCircles now2 s)) /\
  completes (V1.accelerateCircles now1 s) = completes (V1.accelerateCircles now2 s) /\
  clamp 17 0 17 = 17%float /\
  (forall val, is_nan val = false ->
     (0 <=? clamp val 0 17)%float = true /\ (clamp val 0 17 <=? 17)%float = true).
Proof.
  intros H1 H2. destruct clamp_ceiling as [C1 C2].
  rewrite !accelerateCircles_circles, !accelerateCircles_completes, H1, H2, C1, C2.
  repeat split; auto using clamp_range; apply clamp_range; done.
Qed.

Lemma dt_clamp_witness :
  ((11000 - V1.prev start)%float = 10000%float /\
   (1017 - V1.prev start)%float = 17%float) /\
  V1.circles (state_of (V1.accelerateCircles 11000 start)) =
    V1.circles (state_of (V1.accelerateCircles 1017 start)).
Proof.
  split; [split; reflexivity|].
  apply (dt_clamp start 11000 1017); reflexivity.
Defined.




(** C6 (one snapshot per frame). With the anchor skipped, a frame tick runs
    in two phases. The velocity phase ends with every node's position, mass
    and radius as the frame found them, and with node [j] holding what
    [stepped] computes for it from the array as it stood when the frame
    began. Only then is every node moved, once, by its new velocity:
    [pos_new = pos_old + v_new]. *)
Theorem frame_snapshot (now : float) (s : V1.State) :
  V1.skipped s 0 = true ->
  let dt := clamp (now - V1.prev s)%float 0 17 in
  exists s1 s2,
    V1.accelerateCircles now s = Done s1 /\
    pos <$> V1.circles s1 = pos <$> V1.circles s /\
    V1.circles s1 = imap (V1.stepped s dt (V1.circles s)) (V1.circles s) /\
    V1.frame now s = Done s2 /\
    length (V1.circles s2) = length (V1.circles s) /\
    forall j c0 c1,
      V1.circles s !! j = Some c0 ->
      V1.circles s1 !! j = Some c1 ->
      exists c2,
        V1.circles s2 !! j = Some c2 /\
        velocity c2 = velocity c1 /\
        pos c2 = Vec.add (pos c0) (velocity c1).
Proof.
  intros H0 dt.
  pose proof (accelerateCircles_snapshot now s H0) as Hacc.
  pose proof (accelerateCircles_shape now s) as Hshape.
  fold dt in Hacc. rewrite Hacc in Hshape.
  set (cs1 := imap (V1.stepped s dt (V1.circles s)) (V1.circles s)) in *.
  change (shape <$> cs1 = shape <$> V1.circles s) in Hshape.
  exists (V1.set_circles cs1 (V1.set_prev now s)).
  eexists. split; [exact Hacc|].
  change (V1.circles (V1.set_circles cs1 _)) with cs1.
  split.
  { apply (f_equal (fmap (fun t : float * Vector * float => t.1.2))) in Hshape.
    rewrite <- !list_fmap_compose in Hshape. exact Hshape. }
  split; [done|]. unfold V1.frame. rewrite Hacc. split; [done|].
  cbn [V1.circles V1.set_circles].
  split; [subst cs1; by rewrite length_map, length_imap|].
  intros j c0 c1 Hj0 Hj1.
  change (map ?f ?l) with (f <$> l). rewrite list_lookup_fmap, Hj1.
  eexists. split; [done|]. split; [done|].
  pose proof (shape_lookup _ _ j Hshape) as Hl.
  rewrite Hj0, Hj1 in Hl. injection Hl as _ Hp _.
  unfold move. cbn. by rewrite Hp.
Qed.

Lemma frame_snapshot_witness :
  V1.skipped start 0 = true /\
  exists s1 s2,
    V1.accelerateCircles 1016 start = Done s1 /\
    pos <$> V1.circles s1 = pos <$> V1.circles start /\
    V1.circles s1 =
      imap (V1.stepped start (clamp (1016 - V1.prev start) 0 17) (V1.circles start))
           (V1.circles start) /\
    V1.frame 1016 start = Done s2 /\
    length (V1.circles s2) = length (V1.circles start) /\
    forall j c0 c1,
      V1.circles start !! j = Some c0 ->
      V1.circles s1 !! j = Some c1 ->
      exists c2,
        V1.circles s2 !! j = Some c2 /\
        velocity c2 = velocity c1 /\
        pos c2 = Vec.add (pos c0) (velocity c1).
Proof.
  split; [reflexivity|]. apply (frame_snapshot 1016 start). reflexivity.
Defined.

(** C4, refuted as stated: node 5 is held by a drag and the chain is cut to
    3 nodes; the release then clears the drag flag and throws at the write to
    the missing node, so no velocity is set and the dragged index stays
    5. *)
Lemma flick_counterexample :
  V1.dragging node5_held_shrunk = true /\
  V1.currentDragging node5_held_shrunk = 5 /\
  length (V1.circles node5_held_shrunk) = 3 /\
  V1.mouseup (pointer 3 4) node5_held_shrunk =
    TypeError (V1.set_dragging false node5_held_shrunk) /\
  V1.circles (state_of (V1.mouseup (pointer 3 4) node5_held_shrunk)) !! 5 = None /\
  V1.currentDragging (state_of (V1.mouseup (pointer 3 4) node5_held_shrunk)) = 5 /\
  ~ flick_claimed (pointer 3 4) node5_held_shrunk.
Proof.
  split; [reflexivity|]. split; [reflexivity|]. split; [reflexivity|].
  split; [reflexivity|]. split; [reflexivity|]. split; [reflexivity|].
  intros H. destruct (H eq_refl) as (_ & Hcd & _).
  vm_compute in Hcd. discriminate.
Qed.

(** C4, amended (flick impulse). A pointer release during a drag of a node
    that is still in the chain ends normally; with [Δ] the release point
    minus the last recorded pointer position, the released node's velocity
    is [Δ] times 2 and nothing else about the chain changes; the dragged
    index goes back to 0 and no drag is in progress any more. *)
Theorem flick_impulse (e : MouseEvent) (s : V1.State) (c : PhysicsCircle) :
  V1.dragging s = true ->
  V1.circles s !! V1.currentDragging s = Some c ->
  let Δ := Vec.sub (V1.event_point s e) (V1.mousePos s) in
  exists s',
    V1.mouseup e s = Done s' /\
    V1.circles s' !! V1.currentDragging s =
      Some (mkCircle (mass c) (mkVector (x Δ * 2) (y Δ * 2)) (pos c) (radius c)) /\
    (forall j, j <> V1.currentDragging s -> V1.circles s' !! j = V1.circles s !! j) /\
    V1.currentDragging s' = 0 /\
    V1.dragging s' = false.
Proof.
  intros Hd Hc Δ. unfold V1.mouseup. rewrite Hd.
  cbn [V1.circles V1.currentDragging V1.set_dragging V1.mousePos].
  rewrite (set_velocity_lookup _ _ _ c Hc).
  eexists. split; [done|]. cbn [V1.circles V1.set_circles V1.set_currentDragging].
  split; [|split; [|done]].
  - rewrite list_lookup_insert_eq by (by eapply lookup_lt_Some). done.
  - intros j Hj. by rewrite list_lookup_insert_ne.
Qed.

Lemma flick_impulse_witness :
  V1.dragging node5_held = true /\
  V1.circles node5_held !! V1.currentDragging node5_held =
    Some (newPhysicsCircle 0.5 (mkVector 800 850) 6) /\
  exists s',
    V1.mouseup (pointer 3 4) node5_held = Done s' /\
    V1.circles s' !! V1.currentDragging node5_held =
      Some (mkCircle 0.5 (mkVector (3 * 2) (4 * 2)) (mkVector 800 850) 6) /\
    (forall j, j <> V1.currentDragging node5_held ->
               V1.circles s' !! j = V1.circles node5_held !! j) /\
    V1.currentDragging s' = 0 /\
    V1.dragging s' = false.
Proof.
  split; [reflexivity|]. split; [reflexivity|].
  apply (flick_impulse (pointer 3 4) node5_held
           (newPhysicsCircle 0.5 (mkVector 800 850) 6)); reflexivity.
Defined.

(** ** Resizing *)

Lemma at_index_last {A} (l : list A) :
  at_index l (Z.of_nat (length l) - 1) = last l.
Proof.
  rewrite last_lookup. unfold at_index. destruct l as [|a l]; [done|].
  destruct (Z.ltb_spec (Z.of_nat (length (a :: l)) - 1) 0) as [H|H];
    cbn [length] in *; [lia|].
  f_equal. lia.
Qed.

Lemma state_eta (s : V1.State) n cs :
  V1.numCircles s = n -> V1.circles s = cs ->
  V1.set_numCircles n (V1.set_circles cs s) = s.
Proof. destruct s. cbn. by intros -> ->. Qed.

(** The growing loop appends copies of one circle: a fresh circle at the
    last node's position. *)
Lemma grow_spec k : forall s c,
  last (V1.circles s) = Some c ->
  V1.grow k s =
    Done (V1.set_numCircles (V1.numCircles s + Z.of_nat k)
            (V1.set_circles
               (V1.circles s ++
                  replicate k (newPhysicsCircle V1.circleMass (pos c) V1.circleRadius))
               s)).
Proof.
  induction k as [|k IH]; intros s c Hlast.
  - cbn. f_equal. symmetry. apply state_eta; [lia|]. by rewrite app_nil_r.
  - cbn [V1.grow]. rewrite at_index_last, Hlast, vec_clone.
    erewrite IH by (cbn; apply last_snoc).
    destruct s. unfold V1.set_numCircles, V1.set_circles. cbn.
    f_equal. f_equal; [lia|]. by rewrite <- app_assoc.
Qed.

Lemma grow_keeps k : forall s,
  let s' := state_of (V1.grow k s) in
  V1.stationaryPoints s' = V1.stationaryPoints s /\
  V1.currentDragging s' = V1.currentDragging s /\
  V1.dragging s' = V1.dragging s.
Proof.
  induction k as [|k IH]; intros s; cbn; [done|].
  destruct (at_index _ _); [|done].
  apply (IH (V1.set_numCircles _ (V1.set_circles _ s))).
Qed.

Lemma updateNumCircles_resize (num : Z) (s : V1.State) (c : PhysicsCircle) :
  V1.numCircles s = Z.of_nat (length (V1.circles s)) ->
  last (V1.circles s) = Some c ->
  (0 <= num)%Z ->
  V1.updateNumCircles num s =
    Done (V1.set_numCircles num
            (V1.set_circles
               (resize (Z.to_nat num)
                  (newPhysicsCircle V1.circleMass (pos c) V1.circleRadius)
                  (V1.circles s))
               s)).
Proof.
  intros Hn Hlast Hnum. unfold V1.updateNumCircles.
  rewrite (grow_spec _ s c Hlast). cbn [V1.numCircles V1.set_numCircles V1.set_circles V1.circles].
  destruct (Z.ltb_spec num (V1.numCircles s + Z.of_nat (Z.to_nat (num - V1.numCircles s)))) as [H|H].
  - replace (Z.to_nat (num - V1.numCircles s)) with 0 by lia.
    cbn [replicate]. rewrite app_nil_r.
    unfold splice. destruct (Z.ltb_spec num 0); [lia|].
    rewrite resize_le by lia. by destruct s.
  - rewrite resize_ge by lia.
    replace (Z.to_nat num - length (V1.circles s)) with (Z.to_nat (num - V1.numCircles s)) by lia.
    destruct s. cbn in *. f_equal. f_equal. lia.
Qed.



(** ** Where the weight enters *)

Lemma below_lookup (cs : list PhysicsCircle) (i : nat) :
  (if (Z.of_nat i <? Z.of_nat (length cs) - 1)%Z then cs !! (i + 1) else None)
  = cs !! (i + 1).
Proof.
  destruct (Z.ltb_spec (Z.of_nat i) (Z.of_nat (length cs) - 1)); [done|].
  symmetry. apply lookup_ge_None_2. lia.
Qed.

Lemma below_test (cs : list PhysicsCircle) (i : nat) :
  (Z.of_nat i <? Z.of_nat (length cs) - 1)%Z = bool_decide (is_Some (cs !! (i + 1))).
Proof.
  destruct (Z.ltb_spec (Z.of_nat i) (Z.of_nat (length cs) - 1)) as [H|H];
    symmetry; [apply bool_decide_eq_true | apply bool_decide_eq_false].
  - apply lookup_lt_is_Some_2. lia.
  - rewrite lookup_lt_is_Some. lia.
Qed.

(** C2, refuted as stated: on the chain as loaded, the force the first
    revision computes for node 1 is not the one the spec's formula gives.
    The springs cancel, so the code's force is the bare weight 0.5 * 9.8,
    while the spec's formula divides that weight by 12. *)
Lemma force_weight_counterexample :
  V1.nodeForce start (V1.circles start) 1 = Some (mkVector 0 (0.5 * 9.8)) /\
  claimed_force (V1.springConstant start) (V1.springLength start) V1.g V1.forceDampen
    (newPhysicsCircle 0.5 (mkVector 800 250) 6)
    (newPhysicsCircle 0.5 (mkVector 800 370) 6)
    (V1.circles start !! 2) = mkVector 0 (0.5 * 9.8 / 12) /\
  V1.nodeForce start (V1.circles start) 1 <>
    Some (claimed_force (V1.springConstant start) (V1.springLength start) V1.g
            V1.forceDampen
            (newPhysicsCircle 0.5 (mkVector 800 250) 6)
            (newPhysicsCircle 0.5 (mkVector 800 370) 6)
            (V1.circles start !! 2)).
Proof.
  split; [reflexivity|]. split; [reflexivity|].
  intros H.
  apply (f_equal (fun o => match o with
                           | Some v => (y v <? 1)%float
                           | None => false
                           end)) in H.
  vm_compute in H. discriminate.
Qed.

(** C2, amended. For a node with a node above it: the first revision takes
    the difference of the spring force from below (zero for the last node)
    and the one from above, divides it by the dampening constant 12, and
    then adds the weight [mass * g] to the y component, so the weight enters
    once and is not divided. The third revision adds the weight once to the
    force from below (the last node's force from below is the bare weight),
    then subtracts the force from above and divides the whole by 12. *)
Theorem force_weight_placement (s1 : V1.State) (s3 : V3.State)
    (cs : list PhysicsCircle) (i : nat) (above c : PhysicsCircle) :
  cs !! i = Some above ->
  cs !! S i = Some c ->
  let Fbelow k L := match cs !! S (S i) with
                    | Some b => springForceCircles k L b c
                    | None => mkVector 0 0
                    end in
  let Fabove k L := springForceCircles k L c above in
  let Fb1 := Fbelow (V1.springConstant s1) (V1.springLength s1) in
  let Fa1 := Fabove (V1.springConstant s1) (V1.springLength s1) in
  let Fa3 := Fabove (V3.springConstant s3) (V3.springLength s3) in
  let Fb3 := match cs !! S (S i) with
             | Some b =>
                 Vec.appendY
                   (springForceCircles (V3.springConstant s3) (V3.springLength s3) b c)
                   (mass c * V3.g s3)%float
             | None => mkVector 0 (mass c * V3.g s3)%float
             end in
  V1.nodeForce s1 cs (S i) =
    Some (mkVector ((x Fb1 - x Fa1) / 12)%float
                   ((y Fb1 - y Fa1) / 12 + mass c * V1.g)%float) /\
  V3.nodeForce s3 cs (S i) =
    Some (mkVector ((x Fb3 - x Fa3) / 12)%float ((y Fb3 - y Fa3) / 12)%float).
Proof.
  intros Ha Hc Fbelow Fabove Fb1 Fa1 Fa3 Fb3.
  unfold V1.nodeForce, V3.nodeForce, V3.getForceBelow, V3.getForceAbove.
  rewrite Hc, at_index_pred, Ha, below_test.
  subst Fbelow Fabove Fb1 Fa1 Fa3 Fb3.
  replace (S i + 1) with (S (S i)) by lia.
  destruct (cs !! S (S i)) as [b|] eqn:Hb.
  - rewrite bool_decide_eq_true_2 by eauto. done.
  - rewrite bool_decide_eq_false_2 by (intros [? ?]; done). done.
Qed.

Lemma force_weight_placement_witness :
  V1.circles start !! 0 = Some (newPhysicsCircle 0.5 (mkVector 800 250) 6) /\
  V1.circles start !! 1 = Some (newPhysicsCircle 0.5 (mkVector 800 370) 6) /\
  V1.nodeForce start (V1.circles start) 1 = Some (mkVector 0 (0.5 * 9.8)) /\
  V3.nodeForce start3 (V1.circles start) 1 =
    Some (mkVector 0 ((4 * (120 - 80) + 0.5 * 9.8 - 4 * (120 - 80)) / 12)).
Proof.
  split; [reflexivity|]. split; [reflexivity|].
  apply (force_weight_placement start start3 (V1.circles start) 0
           (newPhysicsCircle 0.5 (mkVector 800 250) 6)
           (newPhysicsCircle 0.5 (mkVector 800 370) 6)); reflexivity.
Defined.

(** ** Stale indices *)

Lemma updateNumCircles_keeps (num : Z) (s : V1.State) :
  let s' := state_of (V1.updateNumCircles num s) in
  V1.stationaryPoints s' = V1.stationaryPoints s /\
  V1.currentDragging s' = V1.currentDragging s /\
  V1.dragging s' = V1.dragging s.
Proof.
  unfold V1.updateNumCircles.
  pose proof (grow_keeps (Z.to_nat (num - V1.numCircles s)) s) as H.
  destruct (V1.grow _ s) as [s1|s1]; cbn in H |- *; [|done].
  by destruct (num <? V1.numCircles s1)%Z.
Qed.

(** C7, refuted as stated: with node 5 pinned by a shift-click, shrinking
    the chain of 10 to 3 nodes leaves 5 in the pinned set and as the dragged
    index. *)
Lemma resize_stale_counterexample :
  (3 < Z.of_nat (length (V1.circles node5_pinned)))%Z /\
  5 ∈ V1.stationaryPoints (state_of (V1.updateNumCircles 3 node5_pinned)) /\
  V1.currentDragging (state_of (V1.updateNumCircles 3 node5_pinned)) = 5 /\
  length (V1.circles (state_of (V1.updateNumCircles 3 node5_pinned))) = 3 /\
  ~ resize_drops_stale node5_pinned 3.
Proof.
  assert (H5 : 5 ∈ V1.stationaryPoints (state_of (V1.updateNumCircles 3 node5_pinned))).
  { apply (bool_decide_unpack _). vm_compute. exact I. }
  split; [vm_compute; reflexivity|]. split; [exact H5|].
  split; [reflexivity|]. split; [reflexivity|].
  intros [H _]. specialize (H 5 H5). lia.
Qed.

(** C7, amended. A resize leaves the pinned set, the dragged index and the
    drag flag exactly as they were, stale indices included. The integrator
    still reads no node that is gone: its loop runs over the indices of the
    chain as it is, so with the anchor skipped the velocity phase after the
    resize runs to its end without a TypeError, on a chain of unchanged
    length. *)
Theorem resize_keeps_indices (num : Z) (now : float) (s : V1.State) :
  V1.skipped s 0 = true ->
  let s' := state_of (V1.updateNumCircles num s) in
  V1.stationaryPoints s' = V1.stationaryPoints s /\
  V1.currentDragging s' = V1.currentDragging s /\
  V1.dragging s' = V1.dragging s /\
  completes (V1.accelerateCircles now s') = true /\
  length (V1.circles (state_of (V1.accelerateCircles now s'))) = length (V1.circles s').
Proof.
  intros H0 s'. destruct (updateNumCircles_keeps num s) as (Hp & Hd & Hg).
  fold s' in Hp, Hd, Hg. repeat (split; [done|]).
  assert (H0' : V1.skipped s' 0 = true).
  { unfold V1.skipped in *. by rewrite Hp, Hd. }
  rewrite (accelerateCircles_snapshot now s' H0'). split; [done|].
  cbn. apply length_imap.
Qed.

Lemma resize_keeps_indices_witness :
  V1.skipped node5_pinned 0 = true /\
  V1.currentDragging (state_of (V1.updateNumCircles 3 node5_pinned)) =
    V1.currentDragging node5_pinned /\
  completes (V1.accelerateCircles 1016 (state_of (V1.updateNumCircles 3 node5_pinned)))
    = true.
Proof.
  split; [reflexivity|].
  pose proof (resize_keeps_indices 3 1016 node5_pinned eq_refl) as H.
  split; apply H.
Defined.

(** ** Reset *)

Lemma generatePoints_loop_lookup p n : forall i j,
  j < n ->
  V1.generatePoints_loop p n i !! j =
    Some (newPhysicsCircle V1.circleMass
            (mkVector (x p) (Nat.iter j (fun i => i + 1) i * V1.circleGap + y p)%float)
            V1.circleRadius).
Proof.
  induction n as [|n IH]; intros i j Hj; [lia|].
  destruct j as [|j]; [done|].
  cbn [V1.generatePoints_loop lookup list_lookup]. rewrite IH by lia.
  by rewrite Nat.iter_succ_r.
Qed.

Lemma generatePoints_loop_length p n : forall i,
  length (V1.generatePoints_loop p n i) = n.
Proof. induction n as [|n IH]; intros i; cbn; [done|]. by rewrite IH. Qed.

Lemma generatePoints3_loop_lookup p m n : forall i j,
  j < n ->
  V3.generatePoints_loop p m n i !! j =
    Some (newPhysicsCircle m
            (mkVector (x p) (Nat.iter j (fun i => i + 1) i * 160 + y p)%float) 6).
Proof.
  induction n as [|n IH]; intros i j Hj; [lia|].
  destruct j as [|j]; [done|].
  cbn [V3.generatePoints_loop lookup list_lookup]. rewrite IH by lia.
  by rewrite Nat.iter_succ_r.
Qed.

(** C9, refuted as stated: a reset while node 5 is held by a drag leaves the
    drag in progress and 5 as the dragged index. *)
Lemma reset_counterexample :
  V1.dragging (V1.resetCircles node5_held) = true /\
  V1.currentDragging (V1.resetCircles node5_held) = 5 /\
  ~ reset_claimed node5_held.
Proof.
  split; [reflexivity|]. split; [reflexivity|].
  intros (_ & _ & [H|H]); vm_compute in H; discriminate.
Qed.

(** C9, amended. The reset command rebuilds the chain from the origin
    (800, 250) with the default mass 0.5: in the first revision with the
    node count as it currently stands and a gap of 120, in the third with 12
    nodes and a gap of 160; node [j] is at its stacked position with zero
    velocity, and the pinned set is exactly [{0}]. The dragged index and the
    drag flag are left as they were. *)
Theorem reset_postcondition (s : V1.State) (s3 : V3.State) :
  let s' := V1.resetCircles s in
  let s3' := V3.resetCircles s3 in
  (V1.stationaryPoints s' = {[ 0 ]} /\
   V1.circles s' = V1.generatePoints (mkVector 800 250) (V1.numCircles s) /\
   length (V1.circles s') = Z.to_nat (V1.numCircles s) /\
   (forall j, j < Z.to_nat (V1.numCircles s) ->
      V1.circles s' !! j =
        Some (mkCircle 0.5 (mkVector 0 0)
                (mkVector 800 (counter j * 120 + 250)%float) 6)) /\
   V1.numCircles s' = V1.numCircles s /\
   V1.currentDragging s' = V1.currentDragging s /\
   V1.dragging s' = V1.dragging s) /\
  (V3.stationaryPoints s3' = {[ 0 ]} /\
   length (V3.circles s3') = 12 /\
   (forall j, j < 12 ->
      V3.circles s3' !! j =
        Some (mkCircle 0.5 (mkVector 0 0)
                (mkVector 800 (counter j * 160 + 250)%float) 6)) /\
   V3.currentDragging s3' = V3.currentDragging s3 /\
   V3.dragging s3' = V3.dragging s3).
Proof.
  cbn zeta. split.
  - repeat split; try done.
    + apply generatePoints_loop_length.
    + intros j Hj. apply (generatePoints_loop_lookup (mkVector 800 250) _ 0%float j Hj).
  - repeat split; try done.
    intros j Hj.
    apply (generatePoints3_loop_lookup (mkVector 800 250) 0.5 12 0%float j Hj).
Qed.

(** ** Pointer events *)

Lemma closest_loop_lt p cs n : forall i res,
  res < length cs -> closest_loop p cs n i res < length cs.
Proof.
  induction n as [|n IH]; intros i res Hres; cbn; [done|].
  destruct (cs !! i) as [ci|] eqn:Hi; [|done].
  destruct (cs !! res) as [cr|]; [|done].
  apply IH. apply lookup_lt_Some in Hi. by case_match.
Qed.

Lemma getClosestPointIndex_range cs p :
  getClosestPointIndex cs p <> 0 -> getClosestPointIndex cs p < length cs.
Proof.
  intros H. destruct cs as [|c cs]; [done|].
  apply closest_loop_lt. cbn. lia.
Qed.

Lemma accelerateCircles_fields now s :
  let s' := state_of (V1.accelerateCircles now s) in
  V1.stationaryPoints s' = V1.stationaryPoints s /\
  V1.currentDragging s' = V1.currentDragging s /\
  V1.dragging s' = V1.dragging s.
Proof.
  unfold V1.accelerateCircles. by destruct (V1.accelerate_loop _ _ _ _ _).
Qed.

Lemma frame_fields now s :
  let s' := state_of (V1.frame now s) in
  V1.stationaryPoints s' = V1.stationaryPoints s /\
  V1.currentDragging s' = V1.currentDragging s /\
  V1.dragging s' = V1.dragging s.
Proof.
  pose proof (accelerateCircles_fields now s) as H. unfold V1.frame.
  by destruct (V1.accelerateCircles now s).
Qed.

(** The anchor stays pinned: a shift-click on node 0 returns before the
    toggle, the reset pins it afresh, and nothing else removes an index. So
    index 0 is skipped by the integrator in every state the first revision
    reaches. *)
Lemma anchor_stays_pinned (ev : V1.Event) (num : Z) (s : V1.State) :
  0 ∈ V1.stationaryPoints s ->
  0 ∈ V1.stationaryPoints (state_of (V1.handle ev s)) /\
  0 ∈ V1.stationaryPoints (V1.resetCircles s) /\
  0 ∈ V1.stationaryPoints (state_of (V1.updateNumCircles num s)).
Proof.
  intros H0. split; [|split].
  - destruct ev as [e|e|e|k|k|now]; cbn [V1.handle].
    + unfold V1.mousedown. set (j := getClosestPointIndex _ _).
      cbn [V1.pressingShift V1.set_currentDragging V1.currentDragging
           V1.stationaryPoints V1.circles V1.set_dragging].
      destruct (V1.pressingShift s).
      * destruct (Nat.eqb_spec j 0) as [|Hj]; [done|].
        destruct (bool_decide _).
        -- cbn. apply elem_of_difference. split; [done|].
           rewrite elem_of_singleton. lia.
        -- destruct (set_velocity _ _ _); cbn; [|done].
           apply elem_of_union. by right.
      * by destruct (set_velocity _ _ _).
    + unfold V1.mouseup. destruct (V1.dragging s); [|done].
      by destruct (set_velocity _ _ _).
    + unfold V1.mousemove. destruct (V1.dragging s); [|done].
      by destruct (move_at _ _ _).
    + by destruct k.
    + by destruct k.
    + by rewrite (proj1 (frame_fields now s)).
  - cbn. by apply elem_of_singleton.
  - by rewrite (proj1 (updateNumCircles_keeps num s)).
Qed.

(** A drag that names a node of a chain that is not empty stays that way
    under pointer events, key events and frames: no handler changes the
    chain's length, and a press picks a node of the chain. *)
Lemma drag_in_range_preserved (ev : V1.Event) (s : V1.State) :
  V1.circles s <> [] ->
  V1.drag_in_range s ->
  let s' := state_of (V1.handle ev s) in
  length (V1.circles s') = length (V1.circles s) /\ V1.drag_in_range s'.
Proof.
  intros Hne Hr. unfold V1.drag_in_range in *.
  assert (Hc : forall p, getClosestPointIndex (V1.circles s) p < length (V1.circles s)).
  { intros p. destruct (decide (getClosestPointIndex (V1.circles s) p = 0)) as [->|H].
    - destruct (V1.circles s); [done | cbn; lia].
    - by apply getClosestPointIndex_range. }
  destruct ev as [e|e|e|k|k|now]; cbn [V1.handle].
  - unfold V1.mousedown. set (j := getClosestPointIndex _ _).
    pose proof (Hc (V1.event_point s e)) as Hj. fold j in Hj.
    cbn [V1.pressingShift V1.set_currentDragging V1.currentDragging V1.stationaryPoints
         V1.circles V1.set_dragging].
    destruct (lookup_lt_is_Some_2 _ _ Hj) as [c Hcj].
    rewrite (set_velocity_lookup _ _ _ c Hcj).
    destruct (V1.pressingShift s);
      [destruct (j =? 0); [|destruct (bool_decide _)]|];
      cbn; rewrite ?length_insert; (split; [reflexivity | intros _; lia]).
  - unfold V1.mouseup. destruct (V1.dragging s) eqn:Hd;
      [|cbn; rewrite Hd; split; [reflexivity | intros; discriminate]].
    cbn [V1.circles V1.set_dragging V1.currentDragging].
    destruct (lookup_lt_is_Some_2 _ _ (Hr eq_refl)) as [c Hcj].
    rewrite (set_velocity_lookup _ _ _ c Hcj). cbn.
    rewrite length_insert. split; [done|]. intros _.
    destruct (V1.circles s); [done | cbn; lia].
  - unfold V1.mousemove. destruct (V1.dragging s) eqn:Hd;
      [|cbn; rewrite Hd; split; [reflexivity | intros; discriminate]].
    unfold move_at.
    destruct (lookup_lt_is_Some_2 _ _ (Hr eq_refl)) as [c Hcj].
    rewrite Hcj. cbn. rewrite length_insert. split; [reflexivity | by intros _; apply Hr].
  - destruct k; cbn; (split; [reflexivity | exact Hr]).
  - destruct k; cbn; (split; [reflexivity | exact Hr]).
  - destruct (frame_fields now s) as (_ & Hcd & Hdr).
    assert (Hlen : length (V1.circles (state_of (V1.frame now s))) = length (V1.circles s)).
    { unfold V1.frame.
      pose proof (accelerateCircles_shape now s) as Hs%shape_length.
      destruct (V1.accelerateCircles now s); cbn in *; [|done].
      by rewrite length_map. }
    split; [done|]. intros Hd. rewrite Hcd, Hlen. apply Hr. by rewrite <- Hdr.
Qed.

(** C10, refuted as stated: with node 5 held by a drag and the chain cut to
    3 nodes, the invariant holds (a drag is in progress), but the release
    throws after clearing the drag flag and leaves the dragged index on 5,
    which is neither 0 nor pinned. Likewise a reset after node 5 was pinned
    leaves, with no drag in progress, index 5 skipped by the integrator
    though it is not pinned any more. *)
Lemma drag_index_counterexample :
  V1.drag_inv node5_held_shrunk /\
  V1.dragging (state_of (V1.handle (V1.MouseUp (pointer 3 4)) node5_held_shrunk)) = false /\
  V1.currentDragging (state_of (V1.handle (V1.MouseUp (pointer 3 4)) node5_held_shrunk)) = 5 /\
  ~ V1.drag_inv (state_of (V1.handle (V1.MouseUp (pointer 3 4)) node5_held_shrunk)) /\
  ~ drag_inv_preserved_claimed (V1.MouseUp (pointer 3 4)) node5_held_shrunk /\
  V1.dragging (V1.resetCircles node5_pinned) = false /\
  V1.skipped (V1.resetCircles node5_pinned) 5 = true /\
  (5 ∉ V1.stationaryPoints (V1.resetCircles node5_pinned)).
Proof.
  assert (H1 : V1.drag_inv node5_held_shrunk)
    by (intros H; vm_compute in H; discriminate).
  assert (H2 : ~ V1.drag_inv
                 (state_of (V1.handle (V1.MouseUp (pointer 3 4)) node5_held_shrunk))).
  { intros H. destruct (H eq_refl) as [H0|Hin].
    - vm_compute in H0. discriminate.
    - apply (bool_decide_pack _) in Hin. vm_compute in Hin. exact Hin. }
  split; [exact H1|]. split; [reflexivity|]. split; [reflexivity|].
  split; [exact H2|]. split; [intros H; exact (H2 (H H1))|].
  split; [reflexivity|]. split; [reflexivity|].
  intros Hin. apply (bool_decide_pack _) in Hin. vm_compute in Hin. exact Hin.
Qed.

(** C10, amended (dragged index outside a drag). From a state whose drag,
    if one is in progress, names a node of the chain: whatever pointer
    event, key event or frame comes next, if the dragged index was 0 or
    pinned whenever no drag was in progress, it still is afterwards. In
    particular a release during such a drag and a shift-click on a pinned
    node both put it back to 0. Hence, in the state the event leaves and
    outside a drag, every index the integrator skips is 0 or pinned. The
    resize and reset commands are not among these events. *)
Theorem drag_index_invariant (ev : V1.Event) (s : V1.State) :
  V1.drag_in_range s ->
  V1.drag_inv s ->
  let s' := state_of (V1.handle ev s) in
  V1.drag_inv s' /\
  (forall e, ev = V1.MouseUp e -> V1.dragging s = true ->
     V1.currentDragging s' = 0 /\ V1.dragging s' = false) /\
  (forall e, ev = V1.MouseDown e -> V1.pressingShift s = true ->
     getClosestPointIndex (V1.circles s) (V1.event_point s e) ∈ V1.stationaryPoints s ->
     V1.currentDragging s' = 0 /\ V1.dragging s' = V1.dragging s) /\
  (V1.dragging s' = false ->
     forall i, V1.skipped s' i = true -> i = 0 \/ i ∈ V1.stationaryPoints s').
Proof.
  intros Hr Hinv s'.
  assert (Hskip : forall t, V1.drag_inv t -> V1.dragging t = false ->
            forall i, V1.skipped t i = true -> i = 0 \/ i ∈ V1.stationaryPoints t).
  { intros t Ht Hd i Hi. unfold V1.skipped in Hi.
    apply orb_true_iff in Hi as [Hi|Hi].
    - right. by apply bool_decide_eq_true_1 in Hi.
    - apply Nat.eqb_eq in Hi as ->. by apply Ht. }
  assert (Hup : forall e, V1.dragging s = true ->
            V1.currentDragging (state_of (V1.mouseup e s)) = 0 /\
            V1.dragging (state_of (V1.mouseup e s)) = false).
  { intros e Hd. unfold V1.mouseup. rewrite Hd.
    cbn [V1.circles V1.set_dragging V1.currentDragging].
    destruct (lookup_lt_is_Some_2 _ _ (Hr Hd)) as [c Hc].
    by rewrite (set_velocity_lookup _ _ _ c Hc). }
  assert (Hdown : forall e, V1.pressingShift s = true ->
            getClosestPointIndex (V1.circles s) (V1.event_point s e) ∈ V1.stationaryPoints s ->
            V1.currentDragging (state_of (V1.mousedown e s)) = 0 /\
            V1.dragging (state_of (V1.mousedown e s)) = V1.dragging s).
  { intros e Hsh Hin. unfold V1.mousedown. set (j := getClosestPointIndex _ _) in *.
    cbn [V1.pressingShift V1.set_currentDragging V1.currentDragging V1.stationaryPoints].
    rewrite Hsh. destruct (Nat.eqb_spec j 0) as [->|Hj]; [done|].
    by rewrite bool_decide_eq_true_2. }
  assert (Hmain : V1.drag_inv s').
  { subst s'. destruct ev as [e|e|e|k|k|now]; cbn [V1.handle].
    - unfold V1.mousedown. set (j := getClosestPointIndex _ _).
      cbn [V1.pressingShift V1.set_currentDragging V1.currentDragging V1.stationaryPoints
           V1.circles V1.set_dragging].
      destruct (V1.pressingShift s).
      + destruct (Nat.eqb_spec j 0) as [Hj|Hj]; [intros _; by left|].
        destruct (bool_decide _) eqn:Hb; [intros _; by left|].
        pose proof (getClosestPointIndex_range _ _ Hj) as Hlt. fold j in Hlt.
        destruct (lookup_lt_is_Some_2 _ _ Hlt) as [c Hc].
        rewrite (set_velocity_lookup _ _ _ c Hc).
        intros _. right. cbn. apply elem_of_union. left. by apply elem_of_singleton.
      + by destruct (set_velocity _ _ _).
    - destruct (V1.dragging s) eqn:Hd.
      + intros _. left. by apply Hup.
      + unfold V1.mouseup. by rewrite Hd.
    - unfold V1.mousemove. destruct (V1.dragging s) eqn:Hd.
      + destruct (move_at _ _ _); cbn; intros H; cbn in H; congruence.
      + exact Hinv.
    - by destruct k.
    - by destruct k.
    - destruct (frame_fields now s) as (Hp & Hcd & Hdr).
      unfold V1.drag_inv. rewrite Hp, Hcd, Hdr. exact Hinv. }
  split; [exact Hmain|].
  split; [intros e He Hd; subst s'; rewrite He; by apply Hup|].
  split; [intros e He Hsh Hin; subst s'; rewrite He; by apply Hdown|].
  by apply Hskip.
Qed.

Lemma drag_index_invariant_witness :
  V1.drag_in_range node5_held /\
  V1.drag_inv node5_held /\
  V1.drag_inv (state_of (V1.handle (V1.MouseUp (pointer 3 4)) node5_held)) /\
  V1.currentDragging (state_of (V1.handle (V1.MouseUp (pointer 3 4)) node5_held)) = 0.
Proof.
  assert (H1 : V1.drag_in_range node5_held) by (intros _; vm_compute; lia).
  assert (H2 : V1.drag_inv node5_held) by (intros H; vm_compute in H; discriminate).
  split; [exact H1|]. split; [exact H2|].
  destruct (drag_index_invariant (V1.MouseUp (pointer 3 4)) node5_held H1 H2)
    as (Ha & Hb & _).
  split; [exact Ha|]. exact (proj1 (Hb _ eq_refl eq_refl)).
Defined.

(** ** Pinned nodes *)

Lemma vec_same_refl (v : Vector) : Vec.same v v.
Proof. split; by left. Qed.





(** * Further properties of the code *)

(** ** The order of numbers *)

Ltac cmp_cases :=
  change PosDef.Pos.compare_cont with Pos.compare_cont in *;
  change (Pos.compare_cont Eq) with Pos.compare in *;
  repeat match goal with
  | H : context [(?a ?= ?b)%Z] |- _ => destruct (Z.compare_spec a b)
  | |- context [(?a ?= ?b)%Z] => destruct (Z.compare_spec a b)
  | H : context [(?a ?= ?b)%positive] |- _ => destruct (Pos.compare_spec a b)
  | |- context [(?a ?= ?b)%positive] => destruct (Pos.compare_spec a b)
  end; cbn in *; subst; try congruence; try lia.

Lemma SFcompare_refl (a : spec_float) : a <> S754_nan -> SFcompare a a = Some Eq.
Proof.
  destruct a as [s|s| |s m e]; cbn; try destruct s; try congruence;
    intros _; f_equal; cmp_cases.
Qed.

Lemma SFcompare_trans (a b c : spec_float) (u v : comparison) :
  SFcompare a b = Some u -> SFcompare b c = Some v -> u <> Gt -> v <> Gt ->
  SFcompare a c = Some (match u with Eq => v | _ => Lt end).
Proof.
  destruct a as [sa|sa| |sa ma ea], b as [sb|sb| |sb mb eb], c as [sc|sc| |sc mc ec];
    cbn; try destruct sa; try destruct sb; try destruct sc; try congruence;
    intros [= <-] [= <-] Hu Hv; f_equal; try congruence; cmp_cases.
Qed.

Lemma SFcompare_Eq_sym (a b : spec_float) :
  SFcompare a b = Some Eq -> SFcompare b a = Some Eq.
Proof.
  destruct a as [sa|sa| |sa ma ea], b as [sb|sb| |sb mb eb];
    cbn; try destruct sa; try destruct sb; try congruence;
    intros [= H]; f_equal; cmp_cases.
Qed.

Lemma ltb_irrefl (a : float) : (a <? a)%float = false.
Proof.
  rewrite ltb_spec. unfold SFltb.
  destruct (Prim2SF a) eqn:E; try (rewrite SFcompare_refl by done); done.
Qed.

Lemma leb_ltb_trans (a b c : float) :
  (a <=? b)%float = true -> (b <? c)%float = true -> (a <? c)%float = true.
Proof.
  rewrite leb_spec, !ltb_spec. unfold SFleb, SFltb.
  destruct (SFcompare (Prim2SF a) (Prim2SF b)) as [u|] eqn:E1; [|done].
  destruct (SFcompare (Prim2SF b) (Prim2SF c)) as [v|] eqn:E2; [|done].
  intros Hu Hv. destruct u, v; try done;
    by rewrite (SFcompare_trans _ _ _ _ _ E1 E2).
Qed.

Lemma ltb_trans (a b c : float) :
  (a <? b)%float = true -> (b <? c)%float = true -> (a <? c)%float = true.
Proof. intros H. apply leb_ltb_trans. by apply ltb_leb. Qed.

Lemma leb_trans (a b c : float) :
  (a <=? b)%float = true -> (b <=? c)%float = true -> (a <=? c)%float = true.
Proof.
  rewrite !leb_spec. unfold SFleb.
  destruct (SFcompare (Prim2SF a) (Prim2SF b)) as [u|] eqn:E1; [|done].
  destruct (SFcompare (Prim2SF b) (Prim2SF c)) as [v|] eqn:E2; [|done].
  intros Hu Hv. destruct u, v; try done;
    by rewrite (SFcompare_trans _ _ _ _ _ E1 E2).
Qed.

Lemma not_nan_is_nan (a : float) : Prim2SF a <> S754_nan -> is_nan a = false.
Proof.
  intros H. unfold is_nan. rewrite FloatAxioms.eqb_spec. unfold SFeqb.
  by rewrite SFcompare_refl.
Qed.

Lemma leb_not_nan (a b : float) :
  (a <=? b)%float = true -> is_nan a = false /\ is_nan b = false.
Proof.
  rewrite leb_spec. unfold SFleb. intros H.
  split; apply not_nan_is_nan; intros E; rewrite E in H.
  - cbn in H. discriminate.
  - destruct (Prim2SF a); cbn in H; discriminate.
Qed.

Lemma leb_refl (a : float) : is_nan a = false -> (a <=? a)%float = true.
Proof.
  intros H%is_nan_false. rewrite leb_spec. unfold SFleb.
  by rewrite SFcompare_refl.
Qed.

Lemma leb_not_ltb (a b : float) :
  (a <=? b)%float = true -> (b <? a)%float = false.
Proof.
  intros H. destruct (b <? a)%float eqn:E; [|done].
  pose proof (leb_ltb_trans _ _ _ H E) as F. by rewrite ltb_irrefl in F.
Qed.

Lemma tie_eqb (a b : float) :
  is_nan a = false -> is_nan b = false ->
  (a <? b)%float = false -> (b <? a)%float = false ->
  (a =? b)%float = true /\ (b =? a)%float = true.
Proof.
  intros Ha%is_nan_false Hb%is_nan_false.
  rewrite !ltb_spec, !FloatAxioms.eqb_spec. unfold SFltb, SFeqb.
  destruct (SFcompare (Prim2SF a) (Prim2SF b)) as [[| |]|] eqn:E; try done.
  - rewrite (SFcompare_Eq_sym _ _ E). done.
  - apply SFcompare_Gt_Lt in E. by rewrite E.
  - apply SFcompare_None in E. tauto.
Qed.

Lemma eqb_leb (a b : float) : (a =? b)%float = true -> (a <=? b)%float = true.
Proof.
  rewrite FloatAxioms.eqb_spec, leb_spec. unfold SFeqb, SFleb.
  by destruct (SFcompare _ _) as [[| |]|].
Qed.

Lemma eqb_refl_not_nan (a : float) : is_nan a = false -> (a =? a)%float = true.
Proof. unfold is_nan. by destruct (a =? a)%float. Qed.

(** ** [clamp], [Math.min], [Math.max] *)

Lemma Math_min_cases (a b : float) :
  is_nan a = false -> is_nan b = false ->
  let m := Math_min a b in
  is_nan m = false /\ (m <=? a)%float = true /\ (m <=? b)%float = true /\
  (m = a \/ m = b).
Proof.
  intros Ha Hb. unfold Math_min. rewrite Ha, Hb. cbn [orb].
  destruct (a <? b)%float eqn:E1.
  { repeat split; auto using leb_refl, ltb_leb. }
  destruct (b <? a)%float eqn:E2.
  { repeat split; auto using leb_refl, ltb_leb. }
  destruct (tie_eqb a b Ha Hb E1 E2) as [T1 T2].
  destruct (get_sign a); repeat split; auto using leb_refl, eqb_leb.
Qed.

Lemma Math_max_cases (a b : float) :
  is_nan a = false -> is_nan b = false ->
  let m := Math_max a b in
  is_nan m = false /\ (a <=? m)%float = true /\ (b <=? m)%float = true /\
  (m = a \/ m = b).
Proof.
  intros Ha Hb. unfold Math_max. rewrite Ha, Hb. cbn [orb].
  destruct (a <? b)%float eqn:E1.
  { repeat split; auto using leb_refl, ltb_leb. }
  destruct (b <? a)%float eqn:E2.
  { repeat split; auto using leb_refl, ltb_leb. }
  destruct (tie_eqb a b Ha Hb E1 E2) as [T1 T2].
  destruct (get_sign a); repeat split; auto using leb_refl, eqb_leb.
Qed.

(** X2. For a lower bound that is at most the upper bound, [clamp] of any
    number but NaN lies between the two bounds and is one of the three
    arguments; and a number that already lies between the bounds comes back
    as a number equal to it ([===]). *)
Theorem clamp_bounds (val lo hi : float) :
  is_nan val = false ->
  (lo <=? hi)%float = true ->
  (lo <=? clamp val lo hi)%float = true /\
  (clamp val lo hi <=? hi)%float = true /\
  (clamp val lo hi = val \/ clamp val lo hi = lo \/ clamp val lo hi = hi) /\
  ((lo <=? val)%float = true -> (val <=? hi)%float = true ->
   (clamp val lo hi =? val)%float = true).
Proof.
  intros Hv Hle. destruct (leb_not_nan _ _ Hle) as [Hlo Hhi].
  unfold clamp.
  destruct (Math_min_cases val hi Hv Hhi) as (Hn & Hmv & Hmh & Hm).
  destruct (Math_max_cases (Math_min val hi) lo Hn Hlo) as (Hn' & Hxm & Hxl & Hx).
  split; [done|]. split.
  { destruct Hx as [-> | ->]; done. }
  split.
  { destruct Hx as [-> | ->]; [destruct Hm as [-> | ->]|]; auto. }
  intros H1 H2.
  assert (Hvm : (val <=? Math_min val hi)%float = true).
  { destruct Hm as [-> | ->]; [by apply leb_refl | done]. }
  assert (Hup : (Math_max (Math_min val hi) lo <=? val)%float = true).
  { destruct Hx as [-> | ->]; done. }
  assert (Hdown : (val <=? Math_max (Math_min val hi) lo)%float = true)
    by (eapply leb_trans; done).
  apply tie_eqb; auto using leb_not_ltb.
Qed.

Lemma clamp_bounds_witness :
  is_nan 5 = false /\ (0 <=? 17)%float = true /\
  (0 <=? clamp 5 0 17)%float = true /\ (clamp 5 0 17 <=? 17)%float = true.
Proof.
  split; [reflexivity|]. split; [reflexivity|].
  destruct (clamp_bounds 5 0 17 eq_refl eq_refl) as (H1 & H2 & _).
  split; [exact H1 | exact H2].
Defined.

(** X3. NaN is contagious: if any argument of [clamp] is NaN, the result is
    NaN, so an elapsed time that is not a number is not brought back into
    the range. *)
Theorem clamp_nan (val lo hi : float) :
  is_nan val = true \/ is_nan lo = true \/ is_nan hi = true ->
  clamp val lo hi = nan.
Proof.
  intros H. unfold clamp, Math_max.
  destruct (is_nan lo) eqn:Hlo; [by rewrite orb_true_r|].
  assert (Hm : Math_min val hi = nan).
  { unfold Math_min. destruct H as [-> | [H | ->]];
      [done | congruence | by rewrite orb_true_r]. }
  rewrite Hm. done.
Qed.

Lemma clamp_nan_witness :
  (is_nan nan = true \/ is_nan 0 = true \/ is_nan 17 = true) /\ clamp nan 0 17 = nan.
Proof.
  split; [by left|]. apply (clamp_nan nan 0 17). by left.
Defined.

(** ** Picking the nearest node *)

Lemma closest_loop_min (p : Vector) (cs : list PhysicsCircle) n : forall i res cr,
  cs !! res = Some cr ->
  (forall j cj, j < i -> cs !! j = Some cj ->
     (distance (pos cj) p <? distance (pos cr) p)%float = false) ->
  (forall j cj, j < res -> cs !! j = Some cj ->
     (distance (pos cj) p <=? distance (pos cr) p)%float = false) ->
  exists c,
    cs !! closest_loop p cs n i res = Some c /\
    (forall j cj, j < i + n -> cs !! j = Some cj ->
       (distance (pos cj) p <? distance (pos c) p)%float = false) /\
    (forall j cj, j < closest_loop p cs n i res -> cs !! j = Some cj ->
       (distance (pos cj) p <=? distance (pos c) p)%float = false).
Proof.
  induction n as [|n IH]; intros i res cr Hres H1 H2; cbn [closest_loop].
  { exists cr. rewrite Nat.add_0_r. auto. }
  destruct (cs !! i) as [ci|] eqn:Hi.
  - rewrite Hres. rewrite Nat.add_succ_r.
    destruct (distance (pos ci) p <? distance (pos cr) p)%float eqn:Hlt.
    + apply (IH (S i) i ci Hi).
      * intros j cj Hj Hcj. destruct (decide (j = i)) as [->|Hne].
        -- rewrite Hi in Hcj. injection Hcj as ->. apply ltb_irrefl.
        -- destruct (distance (pos cj) p <? distance (pos ci) p)%float eqn:E; [|done].
           rewrite <- (H1 j cj ltac:(lia) Hcj). symmetry. by eapply ltb_trans.
      * intros j cj Hj Hcj.
        destruct (distance (pos cj) p <=? distance (pos ci) p)%float eqn:E; [|done].
        rewrite <- (H1 j cj Hj Hcj). symmetry. by eapply leb_ltb_trans.
    + apply (IH (S i) res cr Hres); [|done].
      intros j cj Hj Hcj. destruct (decide (j = i)) as [->|Hne].
      * rewrite Hi in Hcj. by injection Hcj as ->.
      * apply (H1 j); [lia | done].
  - exists cr. split; [done|]. split; [|done].
    intros j cj Hj Hcj. destruct (decide (j < i)) as [Hlt|Hge]; [by apply (H1 j)|].
    apply lookup_ge_None_1 in Hi.
    apply lookup_lt_Some in Hcj. lia.
Qed.

(** X1. [getClosestPointIndex] answers 0 on an empty chain and an index of
    the chain otherwise; no node is strictly nearer to the pointer than the
    node it picks, and every node before the picked one is strictly farther
    (it is not at a distance less than or equal): among the nearest nodes the
    first wins. *)
Theorem nearest_pick (cs : list PhysicsCircle) (p : Vector) :
  let r := getClosestPointIndex cs p in
  (cs = [] -> r = 0) /\
  (cs <> [] -> r < length cs) /\
  (forall j cj cr,
     cs !! j = Some cj -> cs !! r = Some cr ->
     (distance (pos cj) p <? distance (pos cr) p)%float = false /\
     (j < r -> (distance (pos cj) p <=? distance (pos cr) p)%float = false)).
Proof.
  cbn zeta. split; [by intros ->|]. split.
  { intros Hne. destruct cs as [|c0 cs']; [done|].
    apply closest_loop_lt. cbn. lia. }
  intros j cj cr Hj Hr.
  destruct cs as [|c0 cs'] eqn:Hcs; [done|]. rewrite <- Hcs in *.
  destruct (closest_loop_min p cs (length cs) 0 0 c0) as (c & Hc & Hmin & Hfirst).
  { by rewrite Hcs. }
  { intros; lia. }
  { intros; lia. }
  unfold getClosestPointIndex in Hr. rewrite Hc in Hr. injection Hr as ->.
  split.
  - apply (Hmin j); [|done]. apply lookup_lt_Some in Hj. lia.
  - intros Hlt. by apply (Hfirst j).
Qed.

(** ** Chain length and node count *)

Lemma set_velocity_length cs i v cs' :
  set_velocity cs i v = Some cs' -> length cs' = length cs.
Proof. intros (c & _ & ->)%set_velocity_Some. apply length_insert. Qed.

Lemma move_at_Some cs i v cs' :
  move_at cs i v = Some cs' ->
  exists c, cs !! i = Some c /\ cs' = <[i := move v c]> cs.
Proof.
  unfold move_at. destruct (cs !! i) as [c|]; [|done].
  intros [= <-]. eauto.
Qed.

Lemma frame_length now s :
  length (V1.circles (state_of (V1.frame now s))) = length (V1.circles s).
Proof.
  unfold V1.frame.
  pose proof (accelerateCircles_shape now s) as Hs%shape_length.
  destruct (V1.accelerateCircles now s); cbn in *; [|done].
  by rewrite length_map.
Qed.

(** No pointer event, key event or frame changes the chain's length or the
    node count, however it ends. *)
Lemma handle_length (ev : V1.Event) (s : V1.State) :
  length (V1.circles (state_of (V1.handle ev s))) = length (V1.circles s) /\
  V1.numCircles (state_of (V1.handle ev s)) = V1.numCircles s.
Proof.
  destruct ev as [e|e|e|k|k|now]; cbn [V1.handle].
  - unfold V1.mousedown. set (j := getClosestPointIndex _ _).
    cbn [V1.pressingShift V1.set_currentDragging V1.currentDragging
         V1.stationaryPoints V1.circles V1.set_dragging].
    destruct (set_velocity (V1.circles s) j (mkVector 0 0)) as [cs'|] eqn:Hset.
    + apply set_velocity_length in Hset.
      destruct (V1.pressingShift s); [|done].
      destruct (j =? 0); [done|]. by destruct (bool_decide _).
    + destruct (V1.pressingShift s); [|done].
      destruct (j =? 0); [done|]. by destruct (bool_decide _).
  - unfold V1.mouseup. destruct (V1.dragging s); [|done].
    cbn [V1.circles V1.set_dragging V1.currentDragging V1.mousePos].
    destruct (set_velocity _ _ _) as [cs'|] eqn:Hset; [|done].
    by apply set_velocity_length in Hset.
  - unfold V1.mousemove. destruct (V1.dragging s); [|done].
    destruct (move_at _ _ _) as [cs'|] eqn:Hm; [|done].
    apply move_at_Some in Hm as (c & _ & ->). cbn. by rewrite length_insert.
  - by destruct k.
  - by destruct k.
  - split; [apply frame_length|].
    unfold V1.frame, V1.accelerateCircles.
    by destruct (V1.accelerate_loop _ _ _ _ _).
Qed.

Lemma grow_empty k (s : V1.State) :
  V1.circles s = [] -> 0 < k -> V1.grow k s = TypeError s.
Proof. intros H Hk. destruct k; [lia|]. cbn. by rewrite H. Qed.

(** X4. The node count stays equal to the chain's length: every pointer
    event, key event and frame keeps it so, the reset command keeps it so,
    and so does a resize to any integer count that is not negative (on an
    empty chain a growing resize throws and changes nothing). Counts that
    are not integers are outside the model and outside this statement. *)
Theorem count_consistent_preserved (ev : V1.Event) (num : Z) (s : V1.State) :
  V1.count_consistent s ->
  V1.count_consistent (state_of (V1.handle ev s)) /\
  V1.count_consistent (V1.resetCircles s) /\
  ((0 <= num)%Z -> V1.count_consistent (state_of (V1.updateNumCircles num s))).
Proof.
  unfold V1.count_consistent. intros H. split; [|split].
  - destruct (handle_length ev s) as [-> ->]. done.
  - cbn. unfold V1.generatePoints. rewrite generatePoints_loop_length. lia.
  - intros Hnum. destruct (last (V1.circles s)) as [c|] eqn:Hlast.
    + rewrite (updateNumCircles_resize num s c H Hlast Hnum). cbn.
      rewrite length_resize. lia.
    + apply last_None in Hlast. unfold V1.updateNumCircles.
      assert (H0 : V1.numCircles s = 0%Z) by (by rewrite H, Hlast).
      destruct (decide (num = 0%Z)) as [->|Hne].
      * rewrite H0. change (Z.to_nat (0 - 0)) with 0. cbn [V1.grow].
        rewrite H0. exact H.
      * rewrite (grow_empty _ s Hlast) by lia. done.
Qed.

Lemma count_consistent_preserved_witness :
  V1.count_consistent start /\
  V1.count_consistent (state_of (V1.handle (V1.MouseDown (pointer 800 850)) start)) /\
  V1.count_consistent (V1.resetCircles start) /\
  V1.count_consistent (state_of (V1.updateNumCircles 4 start)).
Proof.
  split; [reflexivity|].
  destruct (count_consistent_preserved (V1.MouseDown (pointer 800 850)) 4 start eq_refl)
    as (H1 & H2 & H3).
  split; [exact H1|]. split; [exact H2|]. apply H3. lia.
Defined.





(** ** Mass and radius *)

Lemma standard_shape (cs cs' : list PhysicsCircle) :
  shape <$> cs' = shape <$> cs ->
  Forall V1.standard cs -> Forall V1.standard cs'.
Proof.
  intros Hs H. apply Forall_lookup. intros i c' Hc'.
  pose proof (shape_lookup _ _ i Hs) as Hl. rewrite Hc' in Hl.
  destruct (cs !! i) as [c|] eqn:Hc; [|done].
  injection Hl as Hm Hp Hr.
  pose proof (Forall_lookup_1 _ _ _ _ H Hc) as [H1 H2].
  split; congruence.
Qed.

Lemma standard_insert (cs : list PhysicsCircle) i c :
  Forall V1.standard cs -> V1.standard c -> Forall V1.standard (<[i := c]> cs).
Proof. intros. by apply Forall_insert. Qed.

Lemma standard_generatePoints p n : forall i,
  Forall V1.standard (V1.generatePoints_loop p n i).
Proof. induction n as [|n IH]; intros i; cbn; constructor; [done | apply IH]. Qed.

Lemma standard_grow k : forall s,
  Forall V1.standard (V1.circles s) ->
  Forall V1.standard (V1.circles (state_of (V1.grow k s))).
Proof.
  induction k as [|k IH]; intros s H; cbn; [done|].
  destruct (at_index _ _); [|done].
  apply IH. cbn. apply Forall_app. split; [done|]. by constructor.
Qed.

(** X7. Every node has mass 0.5 and radius 6, and it stays so: if all nodes
    of the chain are built that way, they still are after any pointer event,
    key event or frame, after a reset, and after a resize to any count, so
    the integrator's division by the mass is a division by 0.5. *)
Theorem mass_and_radius_fixed (ev : V1.Event) (num : Z) (s : V1.State) :
  Forall V1.standard (V1.circles s) ->
  Forall V1.standard (V1.circles (state_of (V1.handle ev s))) /\
  Forall V1.standard (V1.circles (V1.resetCircles s)) /\
  Forall V1.standard (V1.circles (state_of (V1.updateNumCircles num s))) /\
  V1.circleMass = 0.5%float /\ V1.circleRadius = 6%float.
Proof.
  intros H. split; [|split; [|split; [|done]]].
  - destruct ev as [e|e|e|k|k|now]; cbn [V1.handle].
    + unfold V1.mousedown. set (j := getClosestPointIndex _ _).
      cbn [V1.pressingShift V1.set_currentDragging V1.currentDragging
           V1.stationaryPoints V1.circles V1.set_dragging].
      assert (Hset : forall cs', set_velocity (V1.circles s) j (mkVector 0 0) = Some cs' ->
                Forall V1.standard cs').
      { intros cs' (c & Hc & ->)%set_velocity_Some.
        apply standard_insert; [done|]. apply (Forall_lookup_1 _ _ _ _ H Hc). }
      destruct (set_velocity (V1.circles s) j (mkVector 0 0)) as [cs'|] eqn:E.
      * specialize (Hset cs' eq_refl).
        destruct (V1.pressingShift s); [|done].
        destruct (j =? 0); [done|]. by destruct (bool_decide _).
      * destruct (V1.pressingShift s); [|done].
        destruct (j =? 0); [done|]. by destruct (bool_decide _).
    + unfold V1.mouseup. destruct (V1.dragging s); [|done].
      cbn [V1.circles V1.set_dragging V1.currentDragging V1.mousePos].
      destruct (set_velocity _ _ _) as [cs'|] eqn:E; [|done].
      apply set_velocity_Some in E as (c & Hc & ->). cbn.
      apply standard_insert; [done|]. apply (Forall_lookup_1 _ _ _ _ H Hc).
    + unfold V1.mousemove. destruct (V1.dragging s); [|done].
      destruct (move_at _ _ _) as [cs'|] eqn:E; [|done].
      apply move_at_Some in E as (c & Hc & ->). cbn.
      apply standard_insert; [done|]. apply (Forall_lookup_1 _ _ _ _ H Hc).
    + by destruct k.
    + by destruct k.
    + pose proof (standard_shape _ _ (accelerateCircles_shape now s) H) as Hacc.
      unfold V1.frame. destruct (V1.accelerateCircles now s) as [s1|s1]; cbn in *; [|done].
      change (map ?f ?l) with (f <$> l). apply Forall_fmap.
      eapply Forall_impl; [exact Hacc|]. by intros c [? ?].
  - cbn. apply standard_generatePoints.
  - unfold V1.updateNumCircles.
    pose proof (standard_grow (Z.to_nat (num - V1.numCircles s)) s H) as Hg.
    destruct (V1.grow _ s) as [s1|s1]; cbn in Hg |- *; [|done].
    destruct (num <? V1.numCircles s1)%Z; [|done]. cbn.
    unfold splice. destruct (num <? 0)%Z; by apply Forall_take.
Qed.

Lemma mass_and_radius_fixed_witness :
  Forall V1.standard (V1.circles start) /\
  Forall V1.standard (V1.circles (state_of (V1.handle (V1.Frame 1016) start))).
Proof.
  assert (H : Forall V1.standard (V1.circles start))
    by apply standard_generatePoints.
  split; [exact H|].
  exact (proj1 (mass_and_radius_fixed (V1.Frame 1016) 3 start H)).
Defined.

(** ** Handlers that never throw, and handlers that do *)

Lemma closest_in_range (cs : list PhysicsCircle) p :
  cs <> [] -> getClosestPointIndex cs p < length cs.
Proof.
  intros H. destruct cs as [|c cs']; [done|]. apply closest_loop_lt. cbn. lia.
Qed.

Lemma safe_step (ev : V1.Event) (s : V1.State) :
  V1.safe s ->
  completes (V1.handle ev s) = true /\ V1.safe (state_of (V1.handle ev s)).
Proof.
  intros (Hne & Hr & H0). split.
  - destruct ev as [e|e|e|k|k|now]; cbn [V1.handle]; try done.
    + unfold V1.mousedown. set (j := getClosestPointIndex _ _).
      cbn [V1.pressingShift V1.set_currentDragging V1.currentDragging
           V1.stationaryPoints V1.circles V1.set_dragging].
      pose proof (closest_in_range _ (V1.event_point s e) Hne) as Hj. fold j in Hj.
      destruct (lookup_lt_is_Some_2 _ _ Hj) as [c Hc].
      rewrite (set_velocity_lookup _ _ _ c Hc).
      destruct (V1.pressingShift s); [|done].
      destruct (j =? 0); [done|]. by destruct (bool_decide _).
    + unfold V1.mouseup. destruct (V1.dragging s) eqn:Hd; [|done].
      cbn [V1.circles V1.set_dragging V1.currentDragging V1.mousePos].
      destruct (lookup_lt_is_Some_2 _ _ (Hr Hd)) as [c Hc].
      by rewrite (set_velocity_lookup _ _ _ c Hc).
    + unfold V1.mousemove. destruct (V1.dragging s) eqn:Hd; [|done].
      unfold move_at. destruct (lookup_lt_is_Some_2 _ _ (Hr Hd)) as [c Hc].
      by rewrite Hc.
    + unfold V1.frame. rewrite accelerateCircles_snapshot; [done|].
      unfold V1.skipped. by rewrite bool_decide_eq_true_2.
  - destruct (drag_in_range_preserved ev s Hne Hr) as [Hlen Hr'].
    split; [|split; [done|]].
    + intros E. rewrite E in Hlen. destruct (V1.circles s); [done | cbn in Hlen; lia].
    + apply (anchor_stays_pinned ev 0 s H0).
Qed.

(** X8. From a state with a node in the chain, the anchor pinned and any
    active drag naming an existing node (the page as loaded is such a
    state), no run of pointer events, key events and frames leads to a
    handler that throws: after any run the next handler ends normally, and
    the state is again of that kind. *)
Theorem no_type_error (evs : list V1.Event) (ev : V1.Event) (s : V1.State) :
  V1.safe s ->
  completes (V1.handle ev (V1.run evs s)) = true /\ V1.safe (V1.run evs s).
Proof.
  intros H.
  assert (Hrun : V1.safe (V1.run evs s)).
  { revert s H. induction evs as [|e evs IH]; intros s H; [done|].
    cbn. apply IH. by apply safe_step. }
  split; [by apply safe_step | done].
Qed.

Lemma no_type_error_witness :
  V1.safe start /\
  completes (V1.handle (V1.Frame 1050)
               (V1.run [V1.MouseDown (pointer 800 850); V1.Frame 1016;
                        V1.MouseMove (pointer 820 850)] start)) = true.
Proof.
  assert (H : V1.safe start).
  { split; [done|]. split; [intros E; discriminate E|].
    apply (bool_decide_unpack _). vm_compute. exact I. }
  split; [exact H|].
  exact (proj1 (no_type_error _ (V1.Frame 1050) start H)).
Defined.

(** X9. Shrinking the chain under a drag breaks the drag: when a node is
    being dragged and a resize cuts the chain to a length at or below its
    index, the next pointer move throws a TypeError and changes nothing, and
    the release throws too, after it has cleared the drag flag and before it
    resets the dragged index, which is left naming a node that is gone. *)
Theorem stale_drag_throws (num : Z) (e : MouseEvent) (s : V1.State) :
  V1.dragging s = true ->
  V1.count_consistent s ->
  V1.currentDragging s < length (V1.circles s) ->
  (0 <= num <= Z.of_nat (V1.currentDragging s))%Z ->
  exists s1,
    V1.updateNumCircles num s = Done s1 /\
    length (V1.circles s1) = Z.to_nat num /\
    V1.mousemove e s1 = TypeError s1 /\
    V1.mouseup e s1 = TypeError (V1.set_dragging false s1) /\
    V1.dragging (state_of (V1.mouseup e s1)) = false /\
    V1.currentDragging (state_of (V1.mouseup e s1)) = V1.currentDragging s.
Proof.
  intros Hd Hc Hlt Hnum.
  destruct (last (V1.circles s)) as [c|] eqn:Hlast.
  2: { apply last_None in Hlast. rewrite Hlast in Hlt. cbn in Hlt. lia. }
  rewrite (updateNumCircles_resize num s c Hc Hlast) by lia.
  eexists. split; [done|].
  cbn [V1.circles V1.set_circles V1.set_numCircles].
  split; [apply length_resize|].
  assert (Hnone : resize (Z.to_nat num)
                    (newPhysicsCircle V1.circleMass (pos c) V1.circleRadius)
                    (V1.circles s) !! V1.currentDragging s = None).
  { apply lookup_ge_None_2. rewrite length_resize. lia. }
  unfold V1.mousemove, V1.mouseup, move_at, set_velocity.
  cbn [V1.dragging V1.circles V1.currentDragging V1.set_circles V1.set_numCircles
       V1.set_dragging V1.mousePos].
  rewrite Hd, Hnone. done.
Qed.

Lemma stale_drag_throws_witness :
  V1.dragging node5_held = true /\
  V1.count_consistent node5_held /\
  exists s1,
    V1.updateNumCircles 3 node5_held = Done s1 /\
    length (V1.circles s1) = Z.to_nat 3 /\
    V1.mousemove (pointer 3 4) s1 = TypeError s1 /\
    V1.mouseup (pointer 3 4) s1 = TypeError (V1.set_dragging false s1) /\
    V1.dragging (state_of (V1.mouseup (pointer 3 4) s1)) = false /\
    V1.currentDragging (state_of (V1.mouseup (pointer 3 4) s1)) =
      V1.currentDragging node5_held.
Proof.
  split; [reflexivity|]. split; [reflexivity|].
  apply (stale_drag_throws 3 (pointer 3 4) node5_held);
    [reflexivity | reflexivity | vm_compute; lia | vm_compute; split; discriminate].
Defined.

(** ** Nodes the integrator skips *)

Lemma frame_skipped_node now s i c :
  V1.skipped s 0 = true -> V1.skipped s i = true ->
  V1.circles s !! i = Some c ->
  V1.circles (state_of (V1.frame now s)) !! i = Some (move (velocity c) c) /\
  (forall k, V1.skipped (state_of (V1.frame now s)) k = V1.skipped s k).
Proof.
  intros H0 Hi Hc. split.
  - pose proof (accelerateCircles_skipped now s i Hi) as Hacc.
    unfold V1.frame. rewrite (accelerateCircles_snapshot now s H0) in *.
    cbn in Hacc |- *. change (map ?f ?l) with (f <$> l).
    by rewrite list_lookup_fmap, Hacc, Hc.
  - intros k. destruct (frame_fields now s) as (Hp & Hcd & _).
    unfold V1.skipped. by rewrite Hp, Hcd.
Qed.

(** X10. A node the integrator skips (a pinned node, or the node being
    dragged) is never slowed down: with the anchor skipped, every frame moves
    it by the velocity it holds and leaves that velocity as it is, so after
    any number of frames it has been moved that many times by the same
    velocity. *)
Theorem skipped_node_drifts (nows : list float) (s : V1.State) (i : nat)
    (c : PhysicsCircle) :
  V1.skipped s 0 = true ->
  V1.skipped s i = true ->
  V1.circles s !! i = Some c ->
  V1.circles (V1.run (V1.Frame <$> nows) s) !! i =
    Some (Nat.iter (length nows) (move (velocity c)) c) /\
  velocity (Nat.iter (length nows) (move (velocity c)) c) = velocity c.
Proof.
  intros H0 Hi Hc. split.
  - revert s c H0 Hi Hc. induction nows as [|now nows IH]; intros s c H0 Hi Hc; [done|].
    cbn [fmap list_fmap V1.run fold_left V1.handle length].
    destruct (frame_skipped_node now s i c H0 Hi Hc) as [Hc1 Hsk].
    change (fold_left _ (V1.Frame <$> nows) ?t) with (V1.run (V1.Frame <$> nows) t).
    rewrite (IH _ (move (velocity c) c)); [|by rewrite Hsk|by rewrite Hsk|done].
    by rewrite Nat.iter_succ_r.
  - induction (length nows) as [|k IHk]; [done|]. cbn. exact IHk.
Qed.

Lemma skipped_node_drifts_witness :
  V1.skipped (V1.run anchor_drag start) 0 = true /\
  V1.circles (V1.run anchor_drag start) !! 0 =
    Some (mkCircle 0.5 (mkVector 20 0) (mkVector 900 250) 6) /\
  V1.circles (V1.run (V1.Frame <$> [1016; 1032; 1048]%float) (V1.run anchor_drag start)) !! 0 =
    Some (Nat.iter 3 (move (mkVector 20 0)) (mkCircle 0.5 (mkVector 20 0) (mkVector 900 250) 6)).
Proof.
  split; [reflexivity|]. split; [reflexivity|].
  exact (proj1 (skipped_node_drifts [1016; 1032; 1048]%float (V1.run anchor_drag start) 0
                  (mkCircle 0.5 (mkVector 20 0) (mkVector 900 250) 6)
                  eq_refl eq_refl eq_refl)).
Defined.

(** X11. While a node is dragged and at rest, frames and key events leave
    it where it is with velocity (0, 0), and a pointer move translates it by
    exactly the pointer's step since the last recorded position, which it
    then records; the drag and its index stay as they are. A press without
    shift on a chain that is not empty starts such a drag on the nearest
    node. *)
Theorem dragged_node_step (ev : V1.Event) (s : V1.State) (c : PhysicsCircle) :
  V1.dragging s = true ->
  V1.circles s !! V1.currentDragging s = Some c ->
  velocity c = mkVector 0 0 ->
  (forall e, ev <> V1.MouseDown e) ->
  (forall e, ev <> V1.MouseUp e) ->
  let s' := state_of (V1.handle ev s) in
  V1.dragging s' = true /\
  V1.currentDragging s' = V1.currentDragging s /\
  (exists c',
     V1.circles s' !! V1.currentDragging s = Some c' /\
     velocity c' = mkVector 0 0 /\
     match ev with
     | V1.MouseMove e =>
         pos c' = Vec.add (pos c) (Vec.sub (V1.event_point s e) (V1.mousePos s)) /\
         V1.mousePos s' = V1.event_point s e
     | _ => Vec.same (pos c') (pos c)
     end) /\
  (forall e s0,
     V1.pressingShift s0 = false -> V1.circles s0 <> [] ->
     let s1 := state_of (V1.mousedown e s0) in
     V1.dragging s1 = true /\
     V1.currentDragging s1 = getClosestPointIndex (V1.circles s0) (V1.event_point s0 e) /\
     exists c1, V1.circles s1 !! V1.currentDragging s1 = Some c1 /\
                velocity c1 = mkVector 0 0).
Proof.
  intros Hd Hc Hv Hnd Hnu s'. subst s'.
  split; [|split; [|split]].
  - destruct ev as [e|e|e|k|k|now]; cbn [V1.handle].
    + by destruct (Hnd e).
    + by destruct (Hnu e).
    + unfold V1.mousemove, move_at. by rewrite Hd, Hc.
    + by destruct k.
    + by destruct k.
    + by rewrite (proj2 (proj2 (frame_fields now s))).
  - destruct ev as [e|e|e|k|k|now]; cbn [V1.handle].
    + by destruct (Hnd e).
    + by destruct (Hnu e).
    + unfold V1.mousemove, move_at. by rewrite Hd, Hc.
    + by destruct k.
    + by destruct k.
    + by rewrite (proj1 (proj2 (frame_fields now s))).
  - destruct ev as [e|e|e|k|k|now]; cbn [V1.handle].
    + by destruct (Hnd e).
    + by destruct (Hnu e).
    + unfold V1.mousemove, move_at. rewrite Hd, Hc. cbn.
      rewrite list_lookup_insert_eq by (by eapply lookup_lt_Some).
      eexists. split; [done|]. split; [done|]. split; [|done].
      cbn. by rewrite vec_clone.
    + exists c. destruct k; auto using vec_same_refl.
    + exists c. destruct k; auto using vec_same_refl.
    + assert (Hs : V1.skipped s (V1.currentDragging s) = true).
      { unfold V1.skipped. rewrite Nat.eqb_refl. apply orb_true_r. }
      pose proof (accelerateCircles_skipped now s _ Hs) as Hacc.
      unfold V1.frame. destruct (V1.accelerateCircles now s) as [s1|s1]; cbn in Hacc |- *.
      * change (map ?f ?l) with (f <$> l). rewrite list_lookup_fmap, Hacc, Hc. cbn.
        eexists. split; [done|]. split; [done|]. cbn. rewrite Hv. apply vec_add_zero.
      * exists c. rewrite Hacc. auto using vec_same_refl.
  - intros e s0 Hsh Hne. unfold V1.mousedown. set (j := getClosestPointIndex _ _).
    cbn [V1.pressingShift V1.set_currentDragging V1.currentDragging
         V1.stationaryPoints V1.circles V1.set_dragging].
    rewrite Hsh.
    pose proof (closest_in_range _ (V1.event_point s0 e) Hne) as Hj. fold j in Hj.
    destruct (lookup_lt_is_Some_2 _ _ Hj) as [cj Hcj].
    rewrite (set_velocity_lookup _ _ _ cj Hcj). cbn.
    split; [done|]. split; [done|].
    rewrite list_lookup_insert_eq by done. eauto.
Qed.

Lemma dragged_node_step_witness :
  V1.dragging node5_held = true /\
  V1.circles node5_held !! V1.currentDragging node5_held =
    Some (mkCircle 0.5 (mkVector 0 0) (mkVector 800 850) 6) /\
  exists c',
    V1.circles (state_of (V1.handle (V1.MouseMove (pointer 3 4)) node5_held))
      !! V1.currentDragging node5_held = Some c' /\
    velocity c' = mkVector 0 0 /\
    pos c' = Vec.add (mkVector 800 850)
               (Vec.sub (V1.event_point node5_held (pointer 3 4)) (V1.mousePos node5_held)) /\
    V1.mousePos (state_of (V1.handle (V1.MouseMove (pointer 3 4)) node5_held)) =
      V1.event_point node5_held (pointer 3 4).
Proof.
  split; [reflexivity|]. split; [reflexivity|].
  destruct (dragged_node_step (V1.MouseMove (pointer 3 4)) node5_held
              (mkCircle 0.5 (mkVector 0 0) (mkVector 800 850) 6)
              eq_refl eq_refl eq_refl
              ltac:(intros ? H; discriminate H) ltac:(intros ? H; discriminate H))
    as (_ & _ & H & _).
  exact H.
Defined.

(** ** Pinning and unpinning *)





(** ** The anchor in the third revision *)

Lemma newVelocity3_anchor (s : V3.State) dx cs : V3.newVelocity s dx cs 0 = None.
Proof.
  unfold V3.newVelocity, V3.nodeForce, V3.getForceAbove.
  destruct (V3.getForceBelow s cs 0); cbn; [|done].
  by destruct (cs !! 0).
Qed.

(** X13. The third revision lets the anchor go: a shift-click whose nearest
    node is the pinned node 0 removes 0 from the pinned set (the first
    revision returns before the toggle). Once 0 is not pinned and a node
    other than 0 is the dragged index, every frame on a chain that is not
    empty throws a TypeError at node 0, which has no node above it: no
    velocity is written and no node is moved, only [prev] is updated. *)
Theorem unpinned_anchor_stops_frames (now : float) (s : V3.State) :
  V3.circles s <> [] ->
  0 ∉ V3.stationaryPoints s ->
  V3.currentDragging s <> 0 ->
  V3.frame now s = TypeError (V3.set_prev now s) /\
  (forall e s0,
     V3.pressingShift s0 = true ->
     getClosestPointIndex (V3.circles s0) (V3.event_point s0 e) = 0 ->
     0 ∈ V3.stationaryPoints s0 ->
     exists s1,
       V3.mousedown e s0 = Done s1 /\
       (0 ∉ V3.stationaryPoints s1) /\
       V3.stationaryPoints s1 = V3.stationaryPoints s0 ∖ {[ 0 ]} /\
       V3.currentDragging s1 = 0 /\
       V3.circles s1 = V3.circles s0).
Proof.
  intros Hne H0 Hcd. split.
  - unfold V3.frame, V3.accelerateCircles.
    cbn [V3.circles V3.set_prev].
    destruct (V3.circles s) as [|c cs] eqn:Hcs; [done|].
    cbn [length V3.accelerate_loop].
    assert (Hs : V3.skipped (V3.set_prev now s) 0 = false).
    { unfold V3.skipped. cbn [V3.stationaryPoints V3.currentDragging V3.set_prev].
      rewrite bool_decide_eq_false_2 by done.
      by destruct (V3.currentDragging s). }
    rewrite Hs, newVelocity3_anchor. cbn. f_equal.
    destruct s. cbn in *. by subst.
  - intros e s0 Hsh Hj Hin. unfold V3.mousedown. rewrite Hj.
    cbn [V3.pressingShift V3.set_currentDragging V3.currentDragging V3.stationaryPoints].
    rewrite Hsh, bool_decide_eq_true_2 by done.
    eexists. split; [done|]. cbn. split; [|done].
    rewrite elem_of_difference, elem_of_singleton. tauto.
Qed.

Lemma unpinned_anchor_stops_frames_witness :
  V3.circles anchor_unpinned3 <> [] /\
  (0 ∉ V3.stationaryPoints anchor_unpinned3) /\
  V3.currentDragging anchor_unpinned3 = 3 /\
  V3.frame 1016 anchor_unpinned3 = TypeError (V3.set_prev 1016 anchor_unpinned3).
Proof.
  assert (H1 : V3.circles anchor_unpinned3 <> []) by (vm_compute; discriminate).
  assert (H2 : 0 ∉ V3.stationaryPoints anchor_unpinned3).
  { intros H. apply (bool_decide_pack _) in H. vm_compute in H. exact H. }
  assert (H3 : V3.currentDragging anchor_unpinned3 = 3) by (vm_compute; reflexivity).
  split; [exact H1|]. split; [exact H2|]. split; [exact H3|].
  apply (unpinned_anchor_stops_frames 1016 anchor_unpinned3 H1 H2).
  rewrite H3. discriminate.
Defined.

(** ** The second revision *)

Lemma newVelocity2_is_Some dx (cs : list PhysicsCircle) i :
  1 <= i < length cs -> is_Some (V2.newVelocity dx cs i).
Proof.
  intros [H1 H2]. destruct i as [|j]; [lia|].
  destruct (lookup_lt_is_Some_2 cs (S j) H2) as [ci Hci].
  destruct (lookup_lt_is_Some_2 cs j) as [ca Hca]; [lia|].
  unfold V2.newVelocity, V2.getForceBelow, V2.getForceAbove.
  rewrite Hci, at_index_pred, Hca. cbn.
  destruct (Z.ltb_spec (Z.of_nat (S j)) (Z.of_nat (length cs) - 1)); cbn; [|eauto].
  destruct (lookup_lt_is_Some_2 cs (S j + 1)) as [cb Hcb]; [lia|].
  cbn in Hcb. rewrite Hcb. cbn. eauto.
Qed.

Lemma accelerate_loop2_completes (s : V2.State) dx n : forall i cs,
  i + n = length cs ->
  completes (V2.accelerate_loop s dx n i cs) = true /\
  length (state_of (V2.accelerate_loop s dx n i cs)) = length cs.
Proof.
  induction n as [|n IH]; intros i cs Hlen; cbn; [done|].
  destruct (V2.skipped s i) eqn:Hs; [apply IH; lia|].
  assert (Hi : 1 <= i < length cs).
  { unfold V2.skipped in Hs. apply orb_false_iff in Hs as [Hs _].
    apply Nat.eqb_neq in Hs. lia. }
  destruct (newVelocity2_is_Some dx cs i Hi) as [v ->].
  destruct (lookup_lt_is_Some_2 cs i) as [c Hc]; [lia|].
  rewrite (set_velocity_lookup _ _ _ c Hc).
  destruct (IH (S i) (<[i := with_velocity v c]> cs)) as [IH1 IH2].
  { rewrite length_insert. lia. }
  split; [done|]. by rewrite IH2, length_insert.
Qed.

Lemma accelerate_loop2_skipped (s : V2.State) dx n : forall i cs j,
  V2.skipped s j = true ->
  state_of (V2.accelerate_loop s dx n i cs) !! j = cs !! j.
Proof.
  induction n as [|n IH]; intros i cs j Hj; cbn; [done|].
  destruct (V2.skipped s i) eqn:Hs; [by apply IH|].
  destruct (V2.newVelocity dx cs i) as [v|]; [|done].
  destruct (set_velocity cs i v) as [cs'|] eqn:Hset; [|done].
  apply set_velocity_Some in Hset as (c & Hc & ->).
  rewrite IH by done. apply list_lookup_insert_ne. intros ->. congruence.
Qed.

(** X14. In the second revision a frame never throws: the integrator skips
    index 0 by a test of its own, so it never looks above the first node,
    and whatever the state, the frame ends normally on a chain of the same
    length, with the dragged index and the drag flag as they were. *)
Theorem frame2_never_throws (now : float) (s : V2.State) :
  completes (V2.frame now s) = true /\
  length (V2.circles (state_of (V2.frame now s))) = length (V2.circles s) /\
  V2.currentDragging (state_of (V2.frame now s)) = V2.currentDragging s /\
  V2.dragging (state_of (V2.frame now s)) = V2.dragging s.
Proof.
  unfold V2.frame, V2.accelerateCircles.
  destruct (accelerate_loop2_completes (V2.set_prev now s)
              (clamp (now - V2.prev s) 0 17) (length (V2.circles s)) 0 (V2.circles s))
    as [Hc Hl]; [done|].
  cbn [V2.circles V2.set_prev].
  destruct (V2.accelerate_loop _ _ _ _ _) as [cs|cs]; [|done].
  cbn in *. by rewrite length_map.
Qed.

(** X15. In the second revision a release is not tied to a drag: [mouseup]
    never looks at the drag flag. With the dragged index at 0, as it is
    whenever no drag is in progress, a release gives the anchor the flick
    velocity, twice the pointer's step since the last recorded position;
    every frame after that moves the anchor by that velocity and keeps
    it. *)
Theorem stray_release_kicks_anchor (e : MouseEvent) (now : float) (s : V2.State)
    (c0 : PhysicsCircle) :
  V2.currentDragging s = 0 ->
  V2.circles s !! 0 = Some c0 ->
  let v := Vec.multiply (Vec.sub (V2.event_point s e) (V2.mousePos s)) 2 in
  exists s1 s2,
    V2.mouseup e s = Done s1 /\
    V2.circles s1 !! 0 = Some (with_velocity v c0) /\
    V2.frame now s1 = Done s2 /\
    V2.circles s2 !! 0 = Some (move v (with_velocity v c0)).
Proof.
  intros Hcd Hc v.
  assert (H1 : V2.mouseup e s =
            Done (V2.set_currentDragging 0
                    (V2.set_circles (<[0 := with_velocity v c0]> (V2.circles s))
                       (V2.set_dragging false s)))).
  { unfold V2.mouseup.
    cbn [V2.circles V2.set_dragging V2.currentDragging V2.mousePos].
    rewrite Hcd. by rewrite (set_velocity_lookup _ _ _ c0 Hc). }
  rewrite H1. set (s1 := V2.set_currentDragging 0 _).
  assert (Hc1 : V2.circles s1 !! 0 = Some (with_velocity v c0)).
  { cbn. destruct (V2.circles s); [done | reflexivity]. }
  exists s1. unfold V2.frame, V2.accelerateCircles.
  cbn [V2.circles V2.set_prev].
  destruct (accelerate_loop2_completes (V2.set_prev now s1)
              (clamp (now - V2.prev s1) 0 17) (length (V2.circles s1)) 0 (V2.circles s1))
    as [Hdone _]; [done|].
  pose proof (accelerate_loop2_skipped (V2.set_prev now s1)
                (clamp (now - V2.prev s1) 0 17) (length (V2.circles s1)) 0
                (V2.circles s1) 0 eq_refl) as Hsk.
  destruct (V2.accelerate_loop _ _ _ _ _) as [cs|cs]; [|done].
  eexists. split; [done|]. split; [done|]. split; [done|].
  cbn [V2.circles V2.set_circles]. cbn [state_of] in Hsk.
  change (map ?f ?l) with (f <$> l). rewrite list_lookup_fmap, Hsk, Hc1. done.
Qed.

Lemma stray_release_kicks_anchor_witness :
  V2.currentDragging start2 = 0 /\
  V2.dragging start2 = false /\
  V2.circles start2 !! 0 = Some (newPhysicsCircle 0.5 (mkVector 800 250) 10) /\
  exists s1 s2,
    V2.mouseup (pointer 3 4) start2 = Done s1 /\
    V2.circles s1 !! 0 =
      Some (with_velocity (mkVector (3 * 2) (4 * 2)) (newPhysicsCircle 0.5 (mkVector 800 250) 10)) /\
    V2.frame 1016 s1 = Done s2 /\
    V2.circles s2 !! 0 =
      Some (move (mkVector (3 * 2) (4 * 2))
              (with_velocity (mkVector (3 * 2) (4 * 2))
                 (newPhysicsCircle 0.5 (mkVector 800 250) 10))).
Proof.
  split; [reflexivity|]. split; [reflexivity|]. split; [reflexivity|].
  apply (stray_release_kicks_anchor (pointer 3 4) 1016 start2
           (newPhysicsCircle 0.5 (mkVector 800 250) 10)); reflexivity.
Defined.

(** ** Shift-clicks *)

(** X16. A press with shift held never throws, not even on an empty chain,
    never starts or ends a drag and never touches a position, mass or
    radius. When the nearest node is node 0 the pinned set is left alone;
    otherwise the press toggles exactly that node's membership in the pinned
    set. *)
Theorem shift_click_toggles (e : MouseEvent) (s : V1.State) :
  V1.pressingShift s = true ->
  let j := getClosestPointIndex (V1.circles s) (V1.event_point s e) in
  exists s',
    V1.mousedown e s = Done s' /\
    V1.dragging s' = V1.dragging s /\
    shape <$> V1.circles s' = shape <$> V1.circles s /\
    (j = 0 -> V1.stationaryPoints s' = V1.stationaryPoints s) /\
    (j <> 0 ->
     forall k, k ∈ V1.stationaryPoints s' <->
               (k <> j /\ k ∈ V1.stationaryPoints s) \/
               (k = j /\ j ∉ V1.stationaryPoints s)).
Proof.
  intros Hsh j. unfold V1.mousedown. fold j.
  cbn [V1.pressingShift V1.set_currentDragging V1.currentDragging V1.stationaryPoints
       V1.circles].
  rewrite Hsh. destruct (Nat.eqb_spec j 0) as [Hj|Hj].
  { eexists. split; [done|]. cbn. repeat split; done. }
  destruct (decide (j ∈ V1.stationaryPoints s)) as [Hin|Hnot].
  - rewrite bool_decide_eq_true_2 by done.
    eexists. split; [done|]. cbn. split; [done|]. split; [done|]. split; [done|].
    intros _ k. rewrite elem_of_difference, elem_of_singleton. tauto.
  - rewrite bool_decide_eq_false_2 by done.
    pose proof (getClosestPointIndex_range _ (V1.event_point s e) Hj) as Hlt. fold j in Hlt.
    destruct (lookup_lt_is_Some_2 _ _ Hlt) as [c Hc].
    rewrite (set_velocity_lookup _ _ _ c Hc).
    eexists. split; [done|]. cbn. split; [done|].
    split; [by apply (insert_same_shape _ _ c)|]. split; [done|].
    intros _ k. rewrite elem_of_union, elem_of_singleton.
    split; [intros [->|Hk] | intros [[? ?]|[? ?]]]; auto.
    destruct (decide (k = j)) as [->|]; auto.
Qed.

Lemma shift_click_toggles_witness :
  V1.pressingShift (V1.keydown true start) = true /\
  exists s',
    V1.mousedown (pointer 800 850) (V1.keydown true start) = Done s' /\
    V1.dragging s' = V1.dragging (V1.keydown true start) /\
    shape <$> V1.circles s' = shape <$> V1.circles (V1.keydown true start).
Proof.
  split; [reflexivity|].
  destruct (shift_click_toggles (pointer 800 850) (V1.keydown true start) eq_refl)
    as (s' & H1 & H2 & H3 & _).
  exists s'. split; [exact H1|]. split; [exact H2 | exact H3].
Defined.
